(** * parse_lazyapply.py: the landing-page report, verified

    A shallow embedding of [src/parse_lazyapply.py] and of the part of
    BeautifulSoup 4 (release 4.12, with the [html.parser] tree builder)
    that the script calls: [find], [find_all], [Tag.string], [get_text],
    [.parent], the truth value of a tag and the matching rules of
    [SoupStrainer].

    Conventions of the model
    - a Python [str] is a list of characters; a character is a code point
      below 256, so the model covers documents within Latin-1, with
      Python's [str.isspace] and [str.lower] on that range;
    - the parsed tree is the input of every extraction rule; the HTML
      tokenizer itself is a parameter where [parse_file] and [main] are
      modelled;
    - an object reference is the path of the node from the root of the
      tree, which the script never mutates, together with the node;
    - a statement is a function of the world (the files that can be read,
      what was printed) that ends with a value or an uncaught exception;
    - standard output is the sequence of the arguments of [print], oldest
      first; [render] gives the characters written.

    Layout: Python strings, the parsed tree, the process, the script, the
    notions the specification speaks of, then the lemmas and, last, one
    theorem for each claim C1..C10. *)

From Stdlib Require Import List Ascii String Bool Arith Lia.
Import ListNotations.
Open Scope string_scope.
Open Scope list_scope.
Open Scope nat_scope.

(** ** Python strings *)

Module Py.

Definition str := list ascii.

Definition lit (s : string) : str := list_ascii_of_string s.
Coercion lit : string >-> str.

Fixpoint str_eqb (a b : str) : bool :=
  match a, b with
  | [], [] => true
  | x :: a', y :: b' => Ascii.eqb x y && str_eqb a' b'
  | _, _ => false
  end.

(** [str.isspace] on one code point below 256: TAB..CR, FS..US, SPACE,
    NEL (0x85) and NBSP (0xA0). *)
Definition isspace (c : ascii) : bool :=
  let n := nat_of_ascii c in
  ((9 <=? n) && (n <=? 13)) || ((28 <=? n) && (n <=? 32))
  || (n =? 133) || (n =? 160).

(** [str.lower] on one code point below 256: A..Z and the Latin-1 capitals
    0xC0..0xDE (0xD7, the multiplication sign, apart) move up by 32. *)
Definition lower_char (c : ascii) : ascii :=
  let n := nat_of_ascii c in
  if ((65 <=? n) && (n <=? 90))
     || ((192 <=? n) && (n <=? 222) && negb (n =? 215))
  then ascii_of_nat (n + 32) else c.

Definition lower (s : str) : str := map lower_char s.

(** [s.startswith(p)] *)
Fixpoint startswith (p s : str) : bool :=
  match p, s with
  | [], _ => true
  | _ :: _, [] => false
  | x :: p', y :: s' => Ascii.eqb x y && startswith p' s'
  end.

(** [needle in hay] *)
Fixpoint contains (needle hay : str) : bool :=
  startswith needle hay
  || match hay with
     | [] => false
     | _ :: hay' => contains needle hay'
     end.

(** [s.lstrip()], [s.rstrip()], [s.strip()] with no argument. *)
Fixpoint lstrip (s : str) : str :=
  match s with
  | [] => []
  | c :: s' => if isspace c then lstrip s' else s
  end.

Definition rstrip (s : str) : str := rev (lstrip (rev s)).

Definition strip (s : str) : str := rstrip (lstrip s).

(** [sep.join(parts)] *)
Fixpoint join (sep : str) (parts : list str) : str :=
  match parts with
  | [] => []
  | [p] => p
  | p :: rest => p ++ sep ++ join sep rest
  end.

(** [re.findall(r"\S+", s)]: the scanner keeps the run it is reading,
    reversed, in [cur]. *)
Fixpoint findall_nonspace_from (cur : str) (s : str) : list str :=
  match s with
  | [] => match cur with [] => [] | _ => [rev cur] end
  | c :: s' =>
      if isspace c
      then match cur with
           | [] => findall_nonspace_from [] s'
           | _ => rev cur :: findall_nonspace_from [] s'
           end
      else findall_nonspace_from (c :: cur) s'
  end.

Definition findall_nonspace (s : str) : list str :=
  findall_nonspace_from [] s.

(** [any(f(x) for x in l)] *)
Definition any {A} (f : A -> bool) (l : list A) : bool := existsb f l.

(** Truth value of a string: non-empty. *)
Definition str_truthy (s : str) : bool :=
  match s with [] => false | _ => true end.

End Py.

Import Py.

(** ** The parsed tree ([bs4.element]) *)

Module Bs4.

(** The classes of leaf strings the [html.parser] builder creates. *)
Inductive StringKind :=
| NavigableString | CData | Comment | Doctype | Declaration
| ProcessingInstruction | Script | Stylesheet | TemplateString
| RubyTextString | RubyParenthesisString.

Definition kind_eqb (a b : StringKind) : bool :=
  match a, b with
  | NavigableString, NavigableString | CData, CData | Comment, Comment
  | Doctype, Doctype | Declaration, Declaration
  | ProcessingInstruction, ProcessingInstruction | Script, Script
  | Stylesheet, Stylesheet | TemplateString, TemplateString
  | RubyTextString, RubyTextString
  | RubyParenthesisString, RubyParenthesisString => true
  | _, _ => false
  end.

(** A node: a leaf string, or a tag with its name, its attributes as the
    parser read them (raw strings, one binding per key) and its children.
    The [BeautifulSoup] object is the tag named [[document]]. *)
Inductive PageElement :=
| Text (kind : StringKind) (value : str)
| Tag (name : str) (attrs : list (str * str)) (contents : list PageElement).

(** A reference to a node: its path from the root, and the node. *)
Definition path := list nat.
Definition ref := (path * PageElement)%type.

Fixpoint resolve (root : PageElement) (p : path) : option PageElement :=
  match p with
  | [] => Some root
  | i :: p' =>
      match root with
      | Text _ _ => None
      | Tag _ _ cs =>
          match nth_error cs i with
          | Some c => resolve c p'
          | None => None
          end
      end
  end.

(** Document order: a node, then its children from left to right, each
    with its own subtree. *)
Fixpoint walk (pre : path) (e : PageElement) : list ref :=
  (pre, e) ::
  match e with
  | Text _ _ => []
  | Tag _ _ cs =>
      (fix kids (i : nat) (l : list PageElement) : list ref :=
         match l with
         | [] => []
         | c :: l' => walk (pre ++ [i]) c ++ kids (S i) l'
         end) 0 cs
  end.

(** [e.descendants] *)
Definition descendants (e : PageElement) : list ref := tl (walk [] e).

(** [r.parent], in the tree rooted at [soup]; the root has none. *)
Definition parent (soup : PageElement) (r : ref) : option ref :=
  match fst r with
  | [] => None
  | _ :: _ =>
      let q := removelast (fst r) in
      match resolve soup q with
      | Some e => Some (q, e)
      | None => None
      end
  end.

(** Truth value of an object: [Tag.__bool__] is always true, a string is
    true when it is not empty. *)
Definition truthy (e : PageElement) : bool :=
  match e with
  | Tag _ _ _ => true
  | Text _ s => str_truthy s
  end.

(** *** Attributes *)

Inductive AttrValue := AStr (s : str) | AList (l : list str).

(** The attributes the builder splits on whitespace for every tag (the
    ["*"] entry of [HTMLTreeBuilder.DEFAULT_CDATA_LIST_ATTRIBUTES]). The
    entries for single tags ([rel], [rev], [headers], ...) concern no
    attribute the script reads. *)
Definition cdata_list_attributes : list str :=
  [lit "class"; lit "accesskey"; lit "dropzone"].

Fixpoint dict_get (k : str) (d : list (str * str)) : option str :=
  match d with
  | [] => None
  | (k', v) :: d' => if str_eqb k k' then Some v else dict_get k d'
  end.

(** [tag.attrs.get(k)] *)
Definition attrs_get (e : PageElement) (k : str) : option AttrValue :=
  match e with
  | Text _ _ => None
  | Tag _ attrs _ =>
      match dict_get k attrs with
      | None => None
      | Some raw =>
          Some (if existsb (str_eqb k) cdata_list_attributes
                then AList (findall_nonspace raw)
                else AStr raw)
      end
  end.

(** *** [Tag.string] and [get_text] *)

(** [e.string]: the only child when it is a string, else that child's own
    [.string]; [None] when the tag has no child or several. *)
Fixpoint string_of (e : PageElement) : option str :=
  match e with
  | Text _ s => Some s
  | Tag _ _ [c] => string_of c
  | Tag _ _ _ => None
  end.

(** [Tag.interesting_string_types], set from the builder's
    [string_containers] when the tag is created. *)
Definition interesting_string_types (name : str) : list StringKind :=
  if str_eqb name "script" then [Script]
  else if str_eqb name "style" then [Stylesheet]
  else if str_eqb name "template" then [TemplateString]
  else if str_eqb name "rt" then [RubyTextString]
  else if str_eqb name "rp" then [RubyParenthesisString]
  else [NavigableString; CData].

Definition yield_string (strip_it : bool) (types : list StringKind)
    (e : PageElement) : list str :=
  match e with
  | Tag _ _ _ => []
  | Text k s =>
      if existsb (kind_eqb k) types
      then if strip_it
           then match strip s with [] => [] | v => [v] end
           else [s]
      else []
  end.

(** [e._all_strings(strip)] *)
Definition _all_strings (strip_it : bool) (e : PageElement) : list str :=
  match e with
  | Text _ s =>
      match yield_string strip_it [NavigableString; CData] e with
      | [[]] => []
      | l => l
      end
  | Tag name _ _ =>
      flat_map (fun d => yield_string strip_it
                           (interesting_string_types name) (snd d))
               (descendants e)
  end.

(** [e.get_text(separator, strip)] *)
Definition get_text (separator : str) (strip_it : bool) (e : PageElement)
    : str :=
  join separator (_all_strings strip_it e).

(** *** Searching ([SoupStrainer]) *)

(** What a search compares with: a string, a list of strings, [True], or
    a function of the value. *)
Inductive Matcher :=
| MatchStr (s : str)
| MatchAny (l : list str)
| MatchTrue
| MatchFn (f : option str -> bool).

(** [SoupStrainer._matches] on one string or [None]. *)
Definition matches_value (markup : option str) (m : Matcher) : bool :=
  match m with
  | MatchTrue => match markup with Some _ => true | None => false end
  | MatchFn f => f markup
  | MatchStr s =>
      match markup with
      | None => negb (str_truthy s)
      | Some v => str_eqb v s
      end
  | MatchAny l =>
      match markup with
      | None => match l with [] => true | _ => false end
      | Some v => existsb (str_eqb v) l
      end
  end.

(** [SoupStrainer._matches]: a multi-valued attribute matches when one of
    its values does, or when the values joined by one space do. *)
Definition _matches (markup : option AttrValue) (m : Matcher) : bool :=
  match markup with
  | Some (AList items) =>
      existsb (fun item => matches_value (Some item) m) items
      || matches_value (Some (join " " items)) m
  | Some (AStr s) => matches_value (Some s) m
  | None => matches_value None m
  end.

(** [SoupStrainer.search_tag]: the name, then every attribute filter. *)
Definition search_tag (name : option Matcher) (attrs : list (str * Matcher))
    (e : PageElement) : bool :=
  match e with
  | Text _ _ => false
  | Tag n _ _ =>
      match name with
      | None => true
      | Some m => matches_value (Some n) m
      end
      && forallb (fun km => _matches (attrs_get e (fst km)) (snd km)) attrs
  end.

(** [soup.find_all(name, **attrs)] *)
Definition find_all (name : option Matcher) (attrs : list (str * Matcher))
    (soup : PageElement) : list ref :=
  filter (fun r => search_tag name attrs (snd r)) (descendants soup).

(** [soup.find(name, **attrs)]: the first result of [find_all], or
    [None]. *)
Definition find (name : option Matcher) (attrs : list (str * Matcher))
    (soup : PageElement) : option ref :=
  hd_error (find_all name attrs soup).

(** [soup.find_all(string=f)]: only strings are tried, of every class;
    the loop of [_find_all] passes over an empty string ([if i:]). *)
Definition find_all_string (f : str -> bool) (soup : PageElement)
    : list ref :=
  filter (fun r => match snd r with
                   | Text _ s => str_truthy s && f s
                   | Tag _ _ _ => false
                   end)
         (descendants soup).

End Bs4.

Import Bs4.

(** ** The process: files read, lines printed, exceptions raised *)

Inductive Exception :=
| OSError (filename : str)
| UnicodeDecodeError (filename : str)
| KeyError (key : str)
| IndexError.

(** [files f] is the text of file [f] decoded as UTF-8, or the exception
    that opening or decoding it raises. [stdout] holds the argument of
    every [print] call so far, oldest first. *)
Record World := mkWorld {
  files : str -> Exception + str;
  stdout : list str
}.

(** A statement runs in a world and ends normally with a value or with an
    uncaught exception; what it printed before stays printed. *)
Definition IO (A : Type) := World -> (Exception + A) * World.

Definition ret {A} (a : A) : IO A := fun w => (inr a, w).

Definition bind {A B} (m : IO A) (k : A -> IO B) : IO B :=
  fun w =>
    match m w with
    | (inl e, w') => (inl e, w')
    | (inr a, w') => k a w'
    end.

Definition raise {A} (e : Exception) : IO A := fun w => (inl e, w).

Notation "x <- m ;; k" := (bind m (fun x => k))
  (at level 61, m at next level, right associativity).
Notation "m ;; k" := (bind m (fun _ => k))
  (at level 61, right associativity).

(** [print(s)] *)
Definition print (s : str) : IO unit :=
  fun w => (inr tt, mkWorld (files w) (stdout w ++ [s])).

(** [with open(filename, 'r', encoding='utf-8') as f: f.read()] *)
Definition read_text (filename : str) : IO str :=
  fun w =>
    match files w filename with
    | inl e => (inl e, w)
    | inr html => (inr html, w)
    end.

(** [for x in l: body(x)] *)
Fixpoint for_each {A} (l : list A) (body : A -> IO unit) : IO unit :=
  match l with
  | [] => ret tt
  | x :: l' => body x ;; for_each l' body
  end.

(** The characters written: every printed string, then a newline. *)
Definition newline : ascii := ascii_of_nat 10.

Definition render (printed : list str) : str :=
  flat_map (fun s => s ++ [newline]) printed.

(** ** The script *)

(** [f"{title}"] for a string or [None]. *)
Definition format_value (v : option str) : str :=
  match v with
  | Some s => s
  | None => "None"
  end.

(** [tag[key]] *)
Definition getitem (e : PageElement) (key : str) : IO str :=
  match e with
  | Tag _ attrs _ =>
      match dict_get key attrs with
      | Some v => ret v
      | None => raise (KeyError key)
      end
  | Text _ _ => raise (KeyError key)
  end.

Definition keywords : list str :=
  [lit "chrome"; lit "extension"; lit "privacy"; lit "terms"; lit "about";
   lit "blog"; lit "support"].

Definition dollar : ascii := ascii_of_nat 36.

Definition section_or_div : option Matcher :=
  Some (MatchAny [lit "section"; lit "div"]).

(** [soup.title]: [soup.find("title")] *)
Definition soup_title (soup : PageElement) : option ref :=
  find (Some (MatchStr "title")) [] soup.

(** Lines 12-13. *)
Definition title_block (soup : PageElement) : IO unit :=
  let title :=
    match soup_title soup with
    | Some t =>
        if truthy (snd t) then string_of (snd t) else Some (lit "No Title")
    | None => Some (lit "No Title")
    end in
  print (lit "Title: " ++ format_value title).

(** Lines 17-18. *)
Definition features_block (soup : PageElement) : IO unit :=
  for_each
    (find_all section_or_div
       [(lit "id", MatchAny [lit "features"; lit "how-it-works"])] soup)
    (fun section => print (get_text [newline] true (snd section))).

(** Lines 26-31: the search for price symbols. *)
Definition pricing_fallback (soup : PageElement) : IO unit :=
  let prices := find_all_string (fun t => contains [dollar] t) soup in
  for_each prices (fun p =>
    match parent soup p with
    | Some par =>
        if truthy (snd par)
        then print (get_text [] true (snd par))
        else ret tt
    | None => ret tt
    end).

(** Lines 22-31. *)
Definition pricing_block (soup : PageElement) : IO unit :=
  let pricing_section :=
    find section_or_div [(lit "id", MatchStr "pricing")] soup in
  match pricing_section with
  | Some s =>
      if truthy (snd s)
      then print (get_text [newline] true (snd s))
      else pricing_fallback soup
  | None => pricing_fallback soup
  end.

(** Lines 35-36. *)
Definition testimonials_block (soup : PageElement) : IO unit :=
  for_each
    (find_all section_or_div
       [(lit "id", MatchAny [lit "testimonials"; lit "success"])] soup)
    (fun section => print (get_text [newline] true (snd section))).

(** [lambda c: c and 'footer' in c.lower()] *)
Definition footer_class (c : option str) : bool :=
  match c with
  | None => false
  | Some s => str_truthy s && contains "footer" (lower s)
  end.

(** Lines 45-46: the search for footer keywords. *)
Definition footer_fallback (soup : PageElement) : IO unit :=
  for_each
    (find_all (Some (MatchStr "div"))
       [(lit "class", MatchFn footer_class)] soup)
    (fun div => print (get_text [newline] true (snd div))).

(** Lines 40-46. *)
Definition footer_block (soup : PageElement) : IO unit :=
  let footer := find (Some (MatchStr "footer")) [] soup in
  match footer with
  | Some f =>
      if truthy (snd f)
      then print (get_text [newline] true (snd f))
      else footer_fallback soup
  | None => footer_fallback soup
  end.

(** The test of line 53. *)
Definition is_important (href text : str) : bool :=
  any (fun keyword => contains keyword (lower href)
                      || contains keyword (lower text))
      keywords.

(** Lines 50-54. *)
Definition links_block (soup : PageElement) : IO unit :=
  for_each
    (find_all (Some (MatchStr "a")) [(lit "href", MatchTrue)] soup)
    (fun a =>
       href <- getitem (snd a) "href" ;;
       let text := get_text [] true (snd a) in
       if is_important href text
       then print (text ++ lit ": " ++ href)
       else ret tt).

Section Script.

(** [BeautifulSoup(html, 'html.parser')]: the tree the parser builds from
    the text of the file. *)
Variable BeautifulSoup : str -> PageElement.

Definition parse_file (filename : str) : IO unit :=
  html <- read_text filename ;;
  let soup := BeautifulSoup html in
  print (lit "--- Analysis of " ++ filename ++ lit " ---") ;;
  title_block soup ;;
  print (newline :: lit "[Features / How it works]") ;;
  features_block soup ;;
  print (newline :: lit "[Pricing]") ;;
  pricing_block soup ;;
  print (newline :: lit "[Testimonials]") ;;
  testimonials_block soup ;;
  print (newline :: lit "[Footer]") ;;
  footer_block soup ;;
  print (newline :: lit "[Important Links]") ;;
  links_block soup.

(** Lines 56-58, with [sys.argv] as [argv]. *)
Definition main (argv : list str) : IO unit :=
  if 1 <? List.length argv
  then match nth_error argv 1 with
       | Some filename => parse_file filename
       | None => raise IndexError
       end
  else ret tt.

End Script.

(** ** Documents used in examples *)

Definition elem (name : string) (attrs : list (string * string))
    (contents : list PageElement) : PageElement :=
  Tag (lit name) (map (fun kv => (lit (fst kv), lit (snd kv))) attrs)
      contents.

Definition txt (s : string) : PageElement := Text NavigableString (lit s).

Definition document (contents : list PageElement) : PageElement :=
  Tag (lit "[document]") [] contents.

Definition empty_world : World :=
  mkWorld (fun f => inl (OSError f)) [].

(** What a statement prints, started with nothing printed. *)
Definition printed_by (m : IO unit) : list str :=
  stdout (snd (m empty_world)).

(** The paragraph of [sample] with two prices. *)
Definition sample_prices : PageElement :=
  elem "p" [] [txt "Only $5"; elem "i" [] [txt " now "]; txt "or $9"].

Definition sample : PageElement :=
  document
    [elem "html" []
       [elem "head" [] [elem "title" [] [txt "Acme"]];
        elem "body" []
          [elem "div" [("id", "features")]
             [txt " Fast "; elem "b" [] [txt "and"]; txt " cheap "];
           sample_prices;
           elem "div" [("class", "Site-Footer dark")] [txt "Contact us"];
           elem "a" [("href", "/privacy-policy")] [txt "Policy"];
           elem "a" [("href", "/random")] [txt "Random"]]]].


(** ** What the specification speaks of *)

(** [needle] occurs in [hay] as a substring. *)
Definition Substring (needle hay : str) : Prop :=
  exists pre post, hay = pre ++ needle ++ post.

(** [kept] is what remains of [l], in the same order, when exactly the
    elements with property [P] are kept. *)
Inductive Selected {A} (P : A -> Prop) : list A -> list A -> Prop :=
| Selected_nil : Selected P [] []
| Selected_keep x l kept :
    P x -> Selected P l kept -> Selected P (x :: l) (x :: kept)
| Selected_skip x l kept :
    ~ P x -> Selected P l kept -> Selected P (x :: l) kept.

(** The nodes of the document below the root, in document order. *)
Definition nodes (soup : PageElement) : list PageElement :=
  map snd (descendants soup).

Definition children (e : PageElement) : list PageElement :=
  match e with
  | Tag _ _ cs => cs
  | Text _ _ => []
  end.

(** The text runs of a tag: the leaf strings below it that count as its
    text (those of a comment, a doctype, a script or a style sheet count
    only inside their own tag), in document order. *)
Definition text_runs (e : PageElement) : list str :=
  match e with
  | Text _ _ => []
  | Tag name _ _ =>
      flat_map (fun d => match d with
                         | Text k s =>
                             if existsb (kind_eqb k)
                                  (interesting_string_types name)
                             then [s] else []
                         | Tag _ _ _ => []
                         end)
               (nodes e)
  end.

(** The runs stripped of leading and trailing whitespace; a run of
    whitespace only leaves nothing. *)
Definition stripped_runs (e : PageElement) : list str :=
  filter str_truthy (map strip (text_runs e)).

(** The block of text of a tag: its stripped runs joined by [sep]. *)
Definition text_block (sep : str) (e : PageElement) : str :=
  join sep (stripped_runs e).

(** A [<section>] or [<div>] whose [id] is exactly [i]. *)
Definition section_with_id (ids : list str) (e : PageElement) : Prop :=
  exists name attrs cs i,
    e = Tag name attrs cs
    /\ (name = lit "section" \/ name = lit "div")
    /\ dict_get "id" attrs = Some i /\ In i ids.

Definition tag_named (n : str) (e : PageElement) : Prop :=
  exists attrs cs, e = Tag n attrs cs.

(** A [<div>] whose raw [class] attribute, in lower case, contains
    ["footer"]. *)
Definition footer_div (e : PageElement) : Prop :=
  exists attrs cs raw,
    e = Tag "div" attrs cs
    /\ dict_get "class" attrs = Some raw
    /\ Substring "footer" (lower raw).

(** The text of an anchor as the script takes it: the text runs of the
    tag, each stripped on its own, glued with nothing in between, so that
    [sup <b>port</b>] gives ["support"]. *)
Definition glued_text (e : PageElement) : str := text_block [] e.

(** The trimmed visible text of an anchor: its text runs as they are,
    one after the other, stripped as a whole, so that [sup <b>port</b>]
    gives ["sup port"]. *)
Definition trimmed_text (e : PageElement) : str :=
  strip (List.concat (text_runs e)).

(** An [<a>] with an [href] such that the value of the [href], or the
    text [text_of] gives for the anchor, contains one of the keywords
    [kws] once put in lower case. *)
Definition important_link (kws : list str) (text_of : PageElement -> str)
    (e : PageElement) : Prop :=
  exists attrs cs href,
    e = Tag "a" attrs cs
    /\ dict_get "href" attrs = Some href
    /\ exists keyword, In keyword kws
         /\ (Substring keyword (lower href)
             \/ Substring keyword (lower (text_of e))).

(** A leaf string that contains the character [$]. *)
Definition dollar_text (e : PageElement) : Prop :=
  exists k s, e = Text k s /\ In dollar s.

(** [par] is the node at [q] and [r] its child number [i]. *)
Definition parent_of (soup : PageElement) (r : ref) (par : PageElement)
    : Prop :=
  exists q i,
    fst r = q ++ [i] /\ resolve soup q = Some par
    /\ nth_error (children par) i = Some (snd r).

Definition href_of (e : PageElement) : option str :=
  match e with
  | Tag _ attrs _ => dict_get "href" attrs
  | Text _ _ => None
  end.

(** The line of the Important Links section for anchor [e], with
    [text_of e] as its text. *)
Definition link_line (text_of : PageElement -> str) (e : PageElement)
    (line : str) : Prop :=
  exists href,
    href_of e = Some href /\ line = text_of e ++ lit ": " ++ href.

(** The six headers, with [filename] in the first. *)
Definition section_headers (filename : str) : list str :=
  [lit "--- Analysis of " ++ filename ++ lit " ---";
   lit "[Features / How it works]"; lit "[Pricing]"; lit "[Testimonials]";
   lit "[Footer]"; lit "[Important Links]"].

(** The lines of a text: [s.split("\n")]. *)
Fixpoint lines_from (cur : str) (s : str) : list str :=
  match s with
  | [] => [rev cur]
  | c :: s' =>
      if Ascii.eqb c newline
      then rev cur :: lines_from [] s'
      else lines_from (c :: cur) s'
  end.

Definition lines_of (s : str) : list str := lines_from [] s.

(** Line [h] occurs in [lines] and the line after it is empty. *)
Definition followed_by_blank (lines : list str) (h : str) : Prop :=
  exists i, nth_error lines i = Some h /\ nth_error lines (S i) = Some [].

(** The same, decided by trying every line. *)
Definition followed_by_blank_b (lines : list str) (h : str) : bool :=
  existsb (fun i => match nth_error lines i, nth_error lines (S i) with
                    | Some l, Some [] => str_eqb l h
                    | _, _ => false
                    end)
          (seq 0 (List.length lines)).

(** What [parse_file] prints for the tree [soup] of file [filename]:
    each header, then what the statements of its section print. *)
Definition report (soup : PageElement) (filename : str) : list str :=
  [lit "--- Analysis of " ++ filename ++ lit " ---"]
  ++ printed_by (title_block soup)
  ++ [newline :: lit "[Features / How it works]"]
  ++ printed_by (features_block soup)
  ++ [newline :: lit "[Pricing]"]
  ++ printed_by (pricing_block soup)
  ++ [newline :: lit "[Testimonials]"]
  ++ printed_by (testimonials_block soup)
  ++ [newline :: lit "[Footer]"]
  ++ printed_by (footer_block soup)
  ++ [newline :: lit "[Important Links]"]
  ++ printed_by (links_block soup).

(** The text the price search prints for the string [p]. *)
Definition parent_text (soup : PageElement) (p : ref) : str :=
  match parent soup p with
  | Some par => get_text [] true (snd par)
  | None => []
  end.

(** The lines the link loop prints for the anchor [e]. *)
Definition link_lines (e : PageElement) : list str :=
  match href_of e with
  | Some href =>
      let text := get_text [] true e in
      if is_important href text then [text ++ lit ": " ++ href] else []
  | None => []
  end.

Definition str_dec : forall a b : str, {a = b} + {a <> b} :=
  list_eq_dec ascii_dec.

Definition starts_nonspace (s : str) : Prop :=
  match s with
  | [] => False
  | c :: _ => isspace c = false
  end.

Definition ends_nonspace (s : str) : Prop := starts_nonspace (rev s).

(** A page with a pricing section, and prices outside of it. *)
Definition pricing_page : PageElement :=
  document
    [elem "h1" [] [txt "Plans"];
     elem "section" [("id", "pricing")]
       [txt " $9/mo "; elem "b" [] [txt "billed yearly"]];
     elem "p" [] [txt "Only $5"];
     elem "div" [("id", "pricing")] [txt "$7"]].

(** A page with two [<footer>] elements and a footer-like [<div>]. *)
Definition footer_page : PageElement :=
  document
    [elem "div" [("class", "page-footer")] [txt "links"];
     elem "footer" []
       [txt " (c) Acme "; elem "a" [("href", "/terms")] [txt "Terms"]];
     elem "footer" [] [txt "second"]].

(** A world where every file reads as [html], with [out] printed. *)
Definition world_with (html : str) (out : list str) : World :=
  mkWorld (fun _ => inr html) out.

(** Induction on the tree, with the hypothesis for every child. *)
Fixpoint PageElement_ind' (P : PageElement -> Prop)
    (HText : forall k s, P (Text k s))
    (HTag : forall n a cs, Forall P cs -> P (Tag n a cs))
    (e : PageElement) : P e :=
  match e with
  | Text k s => HText k s
  | Tag n a cs =>
      HTag n a cs
        ((fix all (l : list PageElement) : Forall P l :=
            match l with
            | [] => Forall_nil P
            | c :: l' =>
                Forall_cons c (@PageElement_ind' P HText HTag c) (all l')
            end) cs)
  end.

(** The walk over the children of a tag, from child number [i] on. *)
Fixpoint walk_kids (pre : path) (i : nat) (l : list PageElement)
    : list ref :=
  match l with
  | [] => []
  | c :: l' => walk (pre ++ [i]) c ++ walk_kids pre (S i) l'
  end.

(** A statement that always ends normally, reads no file and prints
    [out]. *)
Definition prints (m : IO unit) (out : list str) : Prop :=
  forall w, m w = (inr tt, mkWorld (files w) (stdout w ++ out)).

(** No character of [s] is whitespace. *)
Definition no_space (s : str) : bool :=
  forallb (fun c => negb (isspace c)) s.

(** A page where an element of the Features section lies inside
    another, and a footer-like [<div>] inside another. *)
Definition nested_page : PageElement :=
  document
    [elem "section" [("id", "how-it-works")]
       [txt " Three steps "; elem "div" [("id", "features")] [txt "Fast"];
        txt " and done "];
     elem "div" [("class", "site-footer")]
       [txt "Acme"; elem "div" [("class", "footer-links")] [txt "Terms"]]].

(** A world where [name] is the only file that can be read, with text
    [html], and [out] was printed. *)
Definition only_file (name html : str) (out : list str) : World :=
  mkWorld (fun f => if str_eqb f name then inr html else inl (OSError f))
          out.

(** ** The model at work *)

Example strip_ex : strip "  a b 	" = lit "a b".
Proof. reflexivity. Qed.

Example findall_ex :
  findall_nonspace " site-footer  dark " = [lit "site-footer"; lit "dark"].
Proof. reflexivity. Qed.

Example join_ex : join "|" [lit "a"; lit "b"; lit "c"] = lit "a|b|c".
Proof. reflexivity. Qed.

Example lower_ex : lower "Site-FOOTER" = lit "site-footer".
Proof. reflexivity. Qed.

Example sample_report :
  map string_of_list_ascii
      (stdout (snd (parse_file (fun _ => sample) "x.html"
                      (mkWorld (fun _ => inr []) []))))
  = ["--- Analysis of x.html ---"; "Title: Acme";
     "
[Features / How it works]"; "Fast
and
cheap"; "
[Pricing]"; "Only $5nowor $9"; "Only $5nowor $9"; "
[Testimonials]"; "
[Footer]"; "Contact us"; "
[Important Links]"; "Policy: /privacy-policy"]%string.
Proof. reflexivity. Qed.

(** ** Strings: lemmas *)

Lemma str_eqb_eq (a b : str) : str_eqb a b = true <-> a = b.
Proof.
  revert b; induction a as [|x a IH]; intros [|y b]; simpl;
    try (split; (discriminate || reflexivity)).
  rewrite andb_true_iff, Ascii.eqb_eq, IH.
  split; [intros [-> ->]; reflexivity | intros E; inversion E; auto].
Qed.

Lemma str_eqb_refl (a : str) : str_eqb a a = true.
Proof. apply str_eqb_eq; reflexivity. Qed.

Lemma startswith_spec (p s : str) :
  startswith p s = true <-> exists post, s = p ++ post.
Proof.
  revert s; induction p as [|x p IH]; intros s; simpl.
  - split; [intros _; exists s; reflexivity | reflexivity].
  - destruct s as [|y s].
    + split; [discriminate | intros [post E]; discriminate].
    + rewrite andb_true_iff, Ascii.eqb_eq, IH. split.
      * intros [-> [post ->]]. exists post; reflexivity.
      * intros [post E]. inversion E; subst. split; eauto.
Qed.

Lemma contains_spec (needle hay : str) :
  contains needle hay = true <-> Substring needle hay.
Proof.
  unfold Substring. induction hay as [|c hay IH].
  - simpl. rewrite orb_false_r, startswith_spec. split.
    + intros [post E]. exists [], post. exact E.
    + intros (pre & post & E). destruct pre; simpl in E.
      * eauto.
      * discriminate.
  - simpl. rewrite orb_true_iff, startswith_spec, IH. split.
    + intros [[post E] | (pre & post & E)].
      * exists [], post. exact E.
      * exists (c :: pre), post. simpl. rewrite E. reflexivity.
    + intros (pre & post & E). destruct pre as [|d pre]; simpl in E.
      * left. eauto.
      * right. inversion E. eauto.
Qed.

Lemma contains_char (c : ascii) (s : str) :
  contains [c] s = true <-> In c s.
Proof.
  rewrite contains_spec. split.
  - intros (pre & post & ->). apply in_or_app. right. left. reflexivity.
  - intros H. apply in_split in H. destruct H as (l1 & l2 & ->).
    exists l1, l2. reflexivity.
Qed.

Lemma Selected_filter {A} (P : A -> Prop) (f : A -> bool) (l : list A) :
  (forall x, In x l -> (f x = true <-> P x)) -> Selected P l (filter f l).
Proof.
  induction l as [|x l IH]; intros H; simpl.
  - constructor.
  - assert (Hl : forall y, In y l -> (f y = true <-> P y))
      by (intros y Hy; apply H; right; exact Hy).
    destruct (f x) eqn:E.
    + apply Selected_keep; [apply H; [left; reflexivity | exact E] | auto].
    + apply Selected_skip; [| auto].
      intros HP. apply H in HP; [congruence | left; reflexivity].
Qed.

Lemma Selected_unique {A} (P : A -> Prop) (l k1 k2 : list A) :
  Selected P l k1 -> Selected P l k2 -> k1 = k2.
Proof.
  intros H1; revert k2; induction H1; intros k2 H2; inversion H2; subst;
    try reflexivity; try contradiction; auto.
  f_equal; auto.
Qed.

(** ** The tree: lemmas *)

Lemma walk_Tag pre n a cs :
  walk pre (Tag n a cs) = (pre, Tag n a cs) :: walk_kids pre 0 cs.
Proof.
  simpl. f_equal. generalize 0.
  induction cs as [|c cs IH]; intros i; simpl; [reflexivity|].
  rewrite IH. reflexivity.
Qed.

Lemma walk_kids_cons pre i c cs :
  walk_kids pre i (c :: cs) = walk (pre ++ [i]) c ++ walk_kids pre (S i) cs.
Proof. reflexivity. Qed.

Lemma resolve_cons n a cs i q :
  resolve (Tag n a cs) (i :: q)
  = match nth_error cs i with Some c => resolve c q | None => None end.
Proof. reflexivity. Qed.

(** Every reference met on a walk resolves to its node. *)
Lemma walk_sound root :
  forall pre p e, In (p, e) (walk pre root) ->
    exists q, p = pre ++ q /\ resolve root q = Some e.
Proof.
  induction root as [k s | n a cs IH] using PageElement_ind'; intros pre p e H.
  - simpl in H. destruct H as [H | []]. inversion H; subst.
    exists []. rewrite app_nil_r. split; reflexivity.
  - rewrite walk_Tag in H. destruct H as [H | H].
    + inversion H; subst. exists []. rewrite app_nil_r. split; reflexivity.
    + assert (G : forall i, In (p, e) (walk_kids pre i cs) ->
                exists j c q, nth_error cs j = Some c
                  /\ p = pre ++ [i + j] ++ q /\ resolve c q = Some e).
      { clear H. induction IH as [|c cs Hc _ IHcs]; intros i H.
        - destruct H.
        - rewrite walk_kids_cons in H. apply in_app_or in H.
          destruct H as [H | H].
          + apply Hc in H. destruct H as (q & -> & Hq).
            exists 0, c, q. rewrite Nat.add_0_r, <- app_assoc. auto.
          + apply IHcs in H. destruct H as (j & c' & q & Hj & -> & Hq).
            exists (S j), c', q. rewrite Nat.add_succ_r. auto. }
      apply G in H. destruct H as (j & c & q & Hj & -> & Hq).
      exists (j :: q). simpl. rewrite Hj. auto.
Qed.

(** Every node of the tree is met on the walk, under its own path. *)
Lemma walk_complete root :
  forall pre q e, resolve root q = Some e -> In (pre ++ q, e) (walk pre root).
Proof.
  induction root as [k s | n a cs IH] using PageElement_ind'; intros pre q e H.
  - destruct q; simpl in H; [|discriminate]. inversion H; subst.
    rewrite app_nil_r. left. reflexivity.
  - destruct q as [|j q].
    + inversion H; subst. rewrite app_nil_r, walk_Tag. left. reflexivity.
    + rewrite walk_Tag. right. rewrite resolve_cons in H.
      destruct (nth_error cs j) as [c|] eqn:Hj; [|discriminate].
      assert (G : forall i, In (pre ++ [i + j] ++ q, e) (walk_kids pre i cs)).
      { clear n a. revert j Hj.
        induction IH as [|c' cs Hc _ IHcs]; intros j Hj i.
        - destruct j; discriminate.
        - rewrite walk_kids_cons. apply in_or_app. destruct j as [|j].
          + left. inversion Hj; subst. rewrite Nat.add_0_r, app_assoc.
            apply Hc. exact H.
          + right. rewrite Nat.add_succ_r. apply (IHcs j Hj (S i)). }
      apply (G 0).
Qed.

Lemma resolve_snoc root : forall q i,
  resolve root (q ++ [i])
  = match resolve root q with
    | Some par => nth_error (children par) i
    | None => None
    end.
Proof.
  intros q; revert root; induction q as [|j q IH]; intros root i.
  - simpl. destruct root as [k s | n a cs]; simpl.
    + destruct i; reflexivity.
    + destruct (nth_error cs i); reflexivity.
  - simpl. destruct root as [k s | n a cs]; [reflexivity|].
    destruct (nth_error cs j); [apply IH | reflexivity].
Qed.

Lemma descendants_iff soup p e :
  In (p, e) (descendants soup) <-> p <> [] /\ resolve soup p = Some e.
Proof.
  unfold descendants. split.
  - intros H. assert (Hw : In (p, e) (walk [] soup)).
    { destruct (walk [] soup); [destruct H | right; exact H]. }
    apply walk_sound in Hw. destruct Hw as (q & -> & Hq). simpl.
    split; [|exact Hq]. intros ->.
    destruct soup as [k s | n a cs].
    + destruct H.
    + rewrite walk_Tag in H. simpl in H.
      assert (G : forall i l, ~ In (@nil nat, e) (walk_kids [] i l)).
      { intros i l; revert i; induction l as [|c l IHl]; intros i Hin.
        - destruct Hin.
        - rewrite walk_kids_cons in Hin. apply in_app_or in Hin.
          destruct Hin as [Hin | Hin]; [|apply (IHl _ Hin)].
          apply walk_sound in Hin. destruct Hin as (q & Eq & _).
          destruct q; discriminate. }
      apply (G _ _ H).
  - intros [Hne H]. apply (walk_complete _ []) in H. simpl in H.
    destruct soup as [k s | n a cs].
    + destruct H as [H | []]. inversion H; subst. contradiction.
    + rewrite walk_Tag in *. destruct H as [H | H]; [|exact H].
      inversion H; subst. contradiction.
Qed.

(** Every node below the root has a parent, and the parent is a tag. *)
Lemma descendants_parent soup r :
  In r (descendants soup) ->
  exists n a cs,
    parent soup r = Some (removelast (fst r), Tag n a cs)
    /\ parent_of soup r (Tag n a cs).
Proof.
  destruct r as [p e]. intros H. apply descendants_iff in H.
  destruct H as [Hne H].
  destruct (app_removelast_last 0 Hne) as [].
  set (q := removelast p) in *. set (i := last p 0) in *.
  assert (Ep : p = q ++ [i]) by (apply app_removelast_last; exact Hne).
  rewrite Ep, resolve_snoc in H.
  destruct (resolve soup q) as [par|] eqn:Hq; [|discriminate].
  destruct par as [k s | n a cs]; [destruct i; discriminate|].
  exists n, a, cs. split.
  - unfold parent. simpl. destruct p; [contradiction|].
    fold q. rewrite Hq. reflexivity.
  - exists q, i. simpl. auto.
Qed.

Lemma child_in_descendants soup q par i e :
  resolve soup q = Some par -> nth_error (children par) i = Some e ->
  In (q ++ [i], e) (descendants soup).
Proof.
  intros Hq Hi. apply descendants_iff. split.
  - destruct q; discriminate.
  - rewrite resolve_snoc, Hq. exact Hi.
Qed.

(** ** Whitespace, tokens and substrings *)

Lemma isspace_lower_char (c : ascii) : isspace (lower_char c) = isspace c.
Proof. destruct c as [[] [] [] [] [] [] [] []]; reflexivity. Qed.

Lemma lower_app (a b : str) : lower (a ++ b) = lower a ++ lower b.
Proof. apply map_app. Qed.

Lemma startswith_skip_space (n a b : str) (c : ascii) :
  no_space n = true -> isspace c = true ->
  startswith n (a ++ c :: b) = startswith n a.
Proof.
  intros Hn Hc. revert a; induction n as [|y n IH]; intros a.
  - reflexivity.
  - simpl in Hn. apply andb_true_iff in Hn. destruct Hn as [Hy Hn].
    destruct a as [|x a]; simpl.
    + destruct (Ascii.eqb_spec y c) as [-> |]; [|reflexivity].
      rewrite Hc in Hy. discriminate.
    + rewrite IH by exact Hn. reflexivity.
Qed.

(** A word without whitespace never straddles a whitespace character. *)
Lemma contains_skip_space (n a b : str) (c : ascii) :
  n <> [] -> no_space n = true -> isspace c = true ->
  contains n (a ++ c :: b) = contains n a || contains n b.
Proof.
  intros Hne Hn Hc. induction a as [|x a IH].
  - pose proof (startswith_skip_space n [] b c Hn Hc) as E.
    cbn [app] in *. cbn [contains]. rewrite E.
    destruct n; [contradiction | reflexivity].
  - pose proof (startswith_skip_space n (x :: a) b c Hn Hc) as E.
    cbn [app] in *. cbn [contains]. rewrite E, IH.
    rewrite orb_assoc. reflexivity.
Qed.

Lemma contains_nil (n : str) : n <> [] -> contains n [] = false.
Proof. destruct n; [contradiction | reflexivity]. Qed.

(** Looking for the word in the tokens of a string, or in the string. *)
Lemma findall_contains (n : str) :
  n <> [] -> no_space n = true ->
  forall s cur,
    existsb (fun t => contains n (lower t)) (findall_nonspace_from cur s)
    = contains n (lower (rev cur ++ s)).
Proof.
  intros Hne Hn. induction s as [|c s IH]; intros cur.
  - simpl. rewrite app_nil_r. destruct cur as [|x cur].
    + simpl. symmetry. apply contains_nil; exact Hne.
    + cbn [existsb]. rewrite orb_false_r. reflexivity.
  - cbn [findall_nonspace_from]. destruct (isspace c) eqn:Hc.
    + rewrite lower_app. cbn [lower map].
      rewrite contains_skip_space;
        [| exact Hne | exact Hn | rewrite isspace_lower_char; exact Hc].
      destruct cur as [|x cur].
      * rewrite IH. simpl rev. change (lower []) with (@nil ascii).
        rewrite (contains_nil n Hne). reflexivity.
      * cbn [existsb]. rewrite IH. reflexivity.
    + rewrite IH. simpl rev. rewrite <- app_assoc. reflexivity.
Qed.

Lemma join_contains (n : str) :
  n <> [] -> no_space n = true ->
  forall toks,
    contains n (lower (join " " toks))
    = existsb (fun t => contains n (lower t)) toks.
Proof.
  intros Hne Hn. induction toks as [|t toks IH].
  - simpl. apply contains_nil; exact Hne.
  - destruct toks as [|t' toks].
    + simpl. rewrite orb_false_r. reflexivity.
    + change (join " " (t :: t' :: toks))
        with (t ++ " "%char :: join " " (t' :: toks)).
      rewrite lower_app. cbn [lower map].
      rewrite contains_skip_space; [| exact Hne | exact Hn | reflexivity].
      fold (lower (join " " (t' :: toks))). rewrite IH. reflexivity.
Qed.

Lemma existsb_pointwise {A} (f g : A -> bool) (l : list A) :
  (forall x, f x = g x) -> existsb f l = existsb g l.
Proof.
  intros H. induction l as [|x l IH]; simpl; [reflexivity|].
  rewrite H, IH. reflexivity.
Qed.

Lemma footer_class_contains (t : str) :
  footer_class (Some t) = contains "footer" (lower t).
Proof. destruct t; reflexivity. Qed.

(** The class filter of the footer search, on the values the builder
    made of a raw [class] attribute, is a substring test on the raw
    attribute in lower case. *)
Lemma footer_class_raw (raw : str) :
  _matches (Some (AList (findall_nonspace raw))) (MatchFn footer_class)
  = contains "footer" (lower raw).
Proof.
  assert (Hne : lit "footer" <> []) by discriminate.
  assert (Hn : no_space "footer" = true) by reflexivity.
  unfold _matches, matches_value.
  rewrite footer_class_contains, (join_contains _ Hne Hn).
  rewrite (existsb_pointwise _ (fun t => contains "footer" (lower t)))
    by (intros t; apply footer_class_contains).
  rewrite orb_diag. unfold findall_nonspace.
  rewrite (findall_contains _ Hne Hn). reflexivity.
Qed.

(** ** Searching: what each filter of the script selects *)

Lemma existsb_str_eqb (v : str) (l : list str) :
  existsb (str_eqb v) l = true <-> In v l.
Proof.
  rewrite existsb_exists. split.
  - intros (x & Hx & E). apply str_eqb_eq in E. subst. exact Hx.
  - intros H. exists v. split; [exact H | apply str_eqb_refl].
Qed.

Lemma attrs_get_id n a cs :
  attrs_get (Tag n a cs) "id" = option_map AStr (dict_get "id" a).
Proof. unfold attrs_get. destruct (dict_get "id" a); reflexivity. Qed.

Lemma attrs_get_href n a cs :
  attrs_get (Tag n a cs) "href" = option_map AStr (dict_get "href" a).
Proof. unfold attrs_get. destruct (dict_get "href" a); reflexivity. Qed.

Lemma attrs_get_class n a cs :
  attrs_get (Tag n a cs) "class"
  = option_map (fun raw => AList (findall_nonspace raw))
               (dict_get "class" a).
Proof. unfold attrs_get. destruct (dict_get "class" a); reflexivity. Qed.

Lemma section_or_div_name (n : str) :
  matches_value (Some n) (MatchAny [lit "section"; lit "div"]) = true
  <-> n = lit "section" \/ n = lit "div".
Proof.
  unfold matches_value. rewrite existsb_str_eqb. cbn [In].
  split; [intros [H | [H | []]]; auto | intros [-> | ->]; auto].
Qed.

Lemma search_section_ids (ids : list str) (e : PageElement) :
  ids <> [] ->
  (search_tag section_or_div [(lit "id", MatchAny ids)] e = true
   <-> section_with_id ids e).
Proof.
  intros Hids. destruct e as [k s | n a cs].
  - split; [discriminate | intros (? & ? & ? & ? & E & _); discriminate].
  - unfold search_tag, section_or_div. cbn [forallb fst snd].
    rewrite attrs_get_id, andb_true_r, andb_true_iff, section_or_div_name.
    split.
    + intros [Hn Hm]. destruct (dict_get "id" a) as [i|] eqn:Hi.
      * exists n, a, cs, i. repeat split; auto.
        apply existsb_str_eqb. exact Hm.
      * simpl in Hm. destruct ids; [contradiction | discriminate].
    + intros (n' & a' & cs' & i & E & Hn & Hi & Hin). inversion E; subst.
      split; [exact Hn|]. rewrite Hi. simpl. apply existsb_str_eqb.
      exact Hin.
Qed.

Lemma search_section_id (i : str) (e : PageElement) :
  i <> [] ->
  (search_tag section_or_div [(lit "id", MatchStr i)] e = true
   <-> section_with_id [i] e).
Proof.
  intros Hi. destruct e as [k s | n a cs].
  - split; [discriminate | intros (? & ? & ? & ? & E & _); discriminate].
  - unfold search_tag, section_or_div. cbn [forallb fst snd].
    rewrite attrs_get_id, andb_true_r, andb_true_iff, section_or_div_name.
    split.
    + intros [Hn Hm]. destruct (dict_get "id" a) as [v|] eqn:Hv.
      * simpl in Hm. apply str_eqb_eq in Hm. subst.
        exists n, a, cs, i. repeat split; auto. left. reflexivity.
      * simpl in Hm. destruct i; [contradiction | discriminate].
    + intros (n' & a' & cs' & v & E & Hn & Hv & [<- | []]).
      inversion E; subst. split; [exact Hn|]. rewrite Hv. simpl.
      apply str_eqb_refl.
Qed.

Lemma search_named (name : str) (e : PageElement) :
  search_tag (Some (MatchStr name)) [] e = true <-> tag_named name e.
Proof.
  destruct e as [k s | n a cs].
  - split; [discriminate | intros (? & ? & E); discriminate].
  - unfold search_tag, matches_value. cbn [forallb].
    rewrite andb_true_r, str_eqb_eq. split.
    + intros ->. exists a, cs. reflexivity.
    + intros (a' & cs' & E). inversion E. reflexivity.
Qed.

Lemma search_footer_div (e : PageElement) :
  search_tag (Some (MatchStr "div")) [(lit "class", MatchFn footer_class)] e
  = true
  <-> footer_div e.
Proof.
  destruct e as [k s | n a cs].
  - split; [discriminate | intros (? & ? & ? & E & _); discriminate].
  - unfold search_tag. cbn [forallb fst snd matches_value].
    rewrite attrs_get_class, andb_true_r, andb_true_iff, str_eqb_eq. split.
    + intros [-> Hm]. destruct (dict_get "class" a) as [raw|] eqn:Hc.
      * exists a, cs, raw. repeat split; auto.
        apply contains_spec. rewrite <- footer_class_raw. exact Hm.
      * discriminate.
    + intros (a' & cs' & raw & E & Hc & Hs). inversion E; subst.
      split; [reflexivity|]. rewrite Hc. cbn [option_map].
      rewrite footer_class_raw. apply contains_spec. exact Hs.
Qed.

Lemma search_anchor (e : PageElement) :
  search_tag (Some (MatchStr "a")) [(lit "href", MatchTrue)] e = true
  <-> exists attrs cs href,
        e = Tag "a" attrs cs /\ dict_get "href" attrs = Some href.
Proof.
  destruct e as [k s | n a cs].
  - split; [discriminate | intros (? & ? & ? & E & _); discriminate].
  - unfold search_tag. cbn [forallb fst snd matches_value].
    rewrite attrs_get_href, andb_true_r, andb_true_iff, str_eqb_eq. split.
    + intros [-> Hm]. destruct (dict_get "href" a) as [href|] eqn:Hh.
      * exists a, cs, href. auto.
      * discriminate.
    + intros (a' & cs' & href & E & Hh). inversion E; subst.
      rewrite Hh. auto.
Qed.

Lemma search_tag_is_tag name attrs e :
  search_tag name attrs e = true -> exists n a cs, e = Tag n a cs.
Proof. destruct e; [discriminate | eauto]. Qed.

Lemma filter_map_snd {A B} (f : B -> bool) (l : list (A * B)) :
  map snd (filter (fun r => f (snd r)) l) = filter f (map snd l).
Proof.
  induction l as [|x l IH]; simpl; [reflexivity|].
  destruct (f (snd x)); simpl; rewrite IH; reflexivity.
Qed.

(** The tags a search returns are the nodes of the document with the
    property the filter decides, in document order. *)
Lemma find_all_Selected name attrs (P : PageElement -> Prop) soup :
  (forall e, search_tag name attrs e = true <-> P e) ->
  Selected P (nodes soup) (map snd (find_all name attrs soup)).
Proof.
  intros H. unfold find_all, nodes. rewrite filter_map_snd.
  apply Selected_filter. intros e _. apply H.
Qed.

(** ** The text of a tag *)

Lemma get_text_tag sep n a cs :
  get_text sep true (Tag n a cs) = text_block sep (Tag n a cs).
Proof.
  unfold get_text, text_block, stripped_runs, text_runs, _all_strings, nodes.
  f_equal. induction (descendants (Tag n a cs)) as [|d l IH].
  - reflexivity.
  - cbn [flat_map map]. rewrite map_app, filter_app, <- IH. f_equal.
    destruct (snd d) as [k s | n' a' cs']; [|reflexivity].
    unfold yield_string.
    destruct (existsb (kind_eqb k) (interesting_string_types n));
      [|reflexivity].
    cbn [map filter]. destruct (strip s); reflexivity.
Qed.

Lemma get_text_found sep name attrs soup :
  map (fun r => get_text sep true (snd r)) (find_all name attrs soup)
  = map (text_block sep) (map snd (find_all name attrs soup)).
Proof.
  rewrite map_map. apply map_ext_in. intros r Hr.
  apply filter_In in Hr. destruct Hr as [_ Hr].
  apply search_tag_is_tag in Hr. destruct Hr as (n & a & cs & ->).
  apply get_text_tag.
Qed.

(** ** Statements: lemmas *)

Lemma prints_ret : prints (ret tt) [].
Proof. intros [f o]. unfold ret. simpl. rewrite app_nil_r. reflexivity. Qed.

Lemma prints_print (s : str) : prints (print s) [s].
Proof. intros w. reflexivity. Qed.

Lemma prints_bind (m k : IO unit) (o1 o2 : list str) :
  prints m o1 -> prints k o2 -> prints (m ;; k) (o1 ++ o2).
Proof.
  intros Hm Hk w. unfold bind. rewrite Hm, Hk. simpl.
  rewrite app_assoc. reflexivity.
Qed.

Lemma prints_for_each {A} (l : list A) (body : A -> IO unit)
    (g : A -> list str) :
  (forall x, In x l -> prints (body x) (g x)) ->
  prints (for_each l body) (flat_map g l).
Proof.
  induction l as [|x l IH]; intros H; simpl.
  - apply prints_ret.
  - apply prints_bind.
    + apply H. left. reflexivity.
    + apply IH. intros y Hy. apply H. right. exact Hy.
Qed.

Lemma flat_map_single {A B} (f : A -> B) (l : list A) :
  flat_map (fun x => [f x]) l = map f l.
Proof. induction l; simpl; congruence. Qed.

Lemma prints_for_each_print {A} (l : list A) (f : A -> str) :
  prints (for_each l (fun x => print (f x))) (map f l).
Proof.
  rewrite <- flat_map_single. apply prints_for_each.
  intros x _. apply prints_print.
Qed.

Lemma prints_printed_by (m : IO unit) (out : list str) :
  prints m out -> printed_by m = out.
Proof. intros H. unfold printed_by. rewrite H. reflexivity. Qed.

(** ** What each block of the script prints *)

Lemma title_block_prints soup :
  prints (title_block soup) (printed_by (title_block soup)).
Proof. intros w. reflexivity. Qed.

Lemma features_block_prints soup :
  prints (features_block soup)
    (map (text_block [newline])
       (map snd (find_all section_or_div
          [(lit "id", MatchAny [lit "features"; lit "how-it-works"])] soup))).
Proof.
  rewrite <- get_text_found. apply prints_for_each_print.
Qed.

Lemma testimonials_block_prints soup :
  prints (testimonials_block soup)
    (map (text_block [newline])
       (map snd (find_all section_or_div
          [(lit "id", MatchAny [lit "testimonials"; lit "success"])] soup))).
Proof.
  rewrite <- get_text_found. apply prints_for_each_print.
Qed.

Lemma footer_fallback_prints soup :
  prints (footer_fallback soup)
    (map (text_block [newline])
       (map snd (find_all (Some (MatchStr "div"))
          [(lit "class", MatchFn footer_class)] soup))).
Proof.
  rewrite <- get_text_found. apply prints_for_each_print.
Qed.

Lemma find_all_string_descendant f soup r :
  In r (find_all_string f soup) -> In r (descendants soup).
Proof. intros H. apply filter_In in H. apply H. Qed.

(** The guard [if parent:] of the price search never skips a match. *)
Lemma pricing_fallback_prints soup :
  prints (pricing_fallback soup)
    (map (parent_text soup)
       (find_all_string (fun t => contains [dollar] t) soup)).
Proof.
  unfold pricing_fallback. rewrite <- flat_map_single.
  apply prints_for_each. intros p Hp.
  apply find_all_string_descendant, descendants_parent in Hp.
  destruct Hp as (n & a & cs & Hpar & _).
  unfold parent_text. rewrite Hpar. simpl. apply prints_print.
Qed.

Lemma links_block_prints soup :
  prints (links_block soup)
    (flat_map link_lines
       (map snd (find_all (Some (MatchStr "a")) [(lit "href", MatchTrue)]
                   soup))).
Proof.
  unfold links_block. rewrite flat_map_concat_map, map_map,
    <- flat_map_concat_map.
  apply prints_for_each. intros r Hr.
  apply filter_In in Hr. destruct Hr as [_ Hr].
  apply search_anchor in Hr. destruct Hr as (a & cs & href & E & Hh).
  rewrite E. unfold link_lines, getitem, href_of. rewrite Hh.
  intros w. unfold bind, ret.
  destruct (is_important href (get_text [] true (Tag "a" a cs)));
    [reflexivity|].
  destruct w as [f o]. simpl. rewrite app_nil_r. reflexivity.
Qed.

(** The first result of a search is the first node with the property. *)
Lemma find_first name attrs (P : PageElement -> Prop) soup before s after :
  (forall e, search_tag name attrs e = true <-> P e) ->
  nodes soup = before ++ s :: after ->
  P s -> (forall e, In e before -> ~ P e) ->
  exists r, find name attrs soup = Some r /\ snd r = s.
Proof.
  intros HP. unfold find, find_all, nodes.
  generalize (descendants soup) as l.
  induction before as [|b before IH]; intros l E Hs Hb.
  - destruct l as [|r l]; [discriminate|]. simpl in E. inversion E; subst.
    simpl. apply HP in Hs. rewrite Hs. exists r. auto.
  - destruct l as [|r l]; [discriminate|]. simpl in E. inversion E; subst.
    simpl. destruct (search_tag name attrs (snd r)) eqn:Hr.
    + apply HP in Hr. exfalso. apply (Hb (snd r)); [left; reflexivity|].
      exact Hr.
    + apply IH; auto. intros e He. apply Hb. right. exact He.
Qed.

Lemma find_none name attrs (P : PageElement -> Prop) soup :
  (forall e, search_tag name attrs e = true <-> P e) ->
  (forall e, In e (nodes soup) -> ~ P e) ->
  find name attrs soup = None.
Proof.
  intros HP Hn. unfold find, find_all.
  destruct (filter (fun r => search_tag name attrs (snd r))
              (descendants soup)) as [|r l] eqn:E; [reflexivity|].
  assert (Hr : In r (r :: l)) by (left; reflexivity).
  rewrite <- E in Hr. apply filter_In in Hr. destruct Hr as [Hin Hr].
  exfalso. apply (Hn (snd r)).
  - unfold nodes. apply in_map. exact Hin.
  - apply HP. exact Hr.
Qed.

Lemma pricing_block_found soup before s after :
  nodes soup = before ++ s :: after ->
  section_with_id [lit "pricing"] s ->
  (forall e, In e before -> ~ section_with_id [lit "pricing"] e) ->
  prints (pricing_block soup) [text_block [newline] s].
Proof.
  intros E Hs Hb.
  assert (Hne : lit "pricing" <> []) by discriminate.
  destruct (find_first section_or_div [(lit "id", MatchStr "pricing")]
              _ soup before s after
              (fun e => search_section_id "pricing" e Hne) E Hs Hb)
    as (r & Hf & <-).
  unfold pricing_block. rewrite Hf.
  destruct Hs as (n & a & cs & i & Es & _). rewrite Es. simpl truthy.
  rewrite get_text_tag. apply prints_print.
Qed.

Lemma pricing_block_absent soup :
  (forall e, In e (nodes soup) -> ~ section_with_id [lit "pricing"] e) ->
  prints (pricing_block soup)
    (map (parent_text soup)
       (find_all_string (fun t => contains [dollar] t) soup)).
Proof.
  intros Hn.
  assert (Hne : lit "pricing" <> []) by discriminate.
  unfold pricing_block.
  rewrite (find_none section_or_div [(lit "id", MatchStr "pricing")] _ soup
             (fun e => search_section_id "pricing" e Hne) Hn).
  apply pricing_fallback_prints.
Qed.

Lemma footer_block_found soup before f after :
  nodes soup = before ++ f :: after ->
  tag_named "footer" f ->
  (forall e, In e before -> ~ tag_named "footer" e) ->
  prints (footer_block soup) [text_block [newline] f].
Proof.
  intros E Hf Hb.
  destruct (find_first (Some (MatchStr "footer")) [] _ soup before f after
              (search_named "footer") E Hf Hb) as (r & Hr & <-).
  unfold footer_block. rewrite Hr.
  destruct Hf as (a & cs & Ef). rewrite Ef. simpl truthy.
  rewrite get_text_tag. apply prints_print.
Qed.

Lemma footer_block_absent soup :
  (forall e, In e (nodes soup) -> ~ tag_named "footer" e) ->
  prints (footer_block soup)
    (map (text_block [newline])
       (map snd (find_all (Some (MatchStr "div"))
          [(lit "class", MatchFn footer_class)] soup))).
Proof.
  intros Hn. unfold footer_block.
  rewrite (find_none (Some (MatchStr "footer")) [] _ soup
             (search_named "footer") Hn).
  apply footer_fallback_prints.
Qed.

(** Whatever the document, each block ends normally and prints what
    [printed_by] says. *)
Lemma prints_what_it_prints m out : prints m out -> prints m (printed_by m).
Proof. intros H. rewrite (prints_printed_by m out H). exact H. Qed.

Lemma pricing_block_total soup :
  prints (pricing_block soup) (printed_by (pricing_block soup)).
Proof.
  unfold pricing_block.
  destruct (find section_or_div [(lit "id", MatchStr "pricing")] soup)
    as [s|].
  - destruct (truthy (snd s)).
    + eapply prints_what_it_prints, prints_print.
    + eapply prints_what_it_prints, pricing_fallback_prints.
  - eapply prints_what_it_prints, pricing_fallback_prints.
Qed.

Lemma footer_block_total soup :
  prints (footer_block soup) (printed_by (footer_block soup)).
Proof.
  unfold footer_block.
  destruct (find (Some (MatchStr "footer")) [] soup) as [s|].
  - destruct (truthy (snd s)).
    + eapply prints_what_it_prints, prints_print.
    + eapply prints_what_it_prints, footer_fallback_prints.
  - eapply prints_what_it_prints, footer_fallback_prints.
Qed.

(** ** The price search and the link test *)

Lemma dollar_text_spec (e : PageElement) :
  match e with
  | Text _ s => str_truthy s && contains [dollar] s
  | Tag _ _ _ => false
  end = true
  <-> dollar_text e.
Proof.
  destruct e as [k s | n a cs].
  - rewrite andb_true_iff, contains_char. split.
    + intros [_ H]. exists k, s. auto.
    + intros (k' & s' & E & H). inversion E; subst.
      split; [destruct s'; [destruct H | reflexivity] | exact H].
  - split; [discriminate | intros (? & ? & E & _); discriminate].
Qed.

Lemma parent_text_of soup r par :
  In r (descendants soup) -> parent_of soup r par ->
  parent_text soup r = text_block [] par.
Proof.
  intros Hr (q & i & Ep & Hq & Hi).
  destruct (descendants_parent soup r Hr) as (n & a & cs & Hpar & _).
  unfold parent_text. rewrite Hpar. cbn [snd]. rewrite get_text_tag.
  rewrite Ep, removelast_last in Hpar. unfold parent in Hpar.
  rewrite Ep in Hpar. destruct (q ++ [i]) eqn:Eq.
  - destruct q; discriminate.
  - rewrite <- Eq, removelast_last, Hq in Hpar. inversion Hpar.
    reflexivity.
Qed.

Lemma parents_of_matches soup (l : list ref) :
  (forall r, In r l -> In r (descendants soup)) ->
  exists parents,
    Forall2 (parent_of soup) l parents
    /\ map (parent_text soup) l = map (text_block []) parents.
Proof.
  induction l as [|r l IH]; intros H.
  - exists []. split; [constructor | reflexivity].
  - destruct IH as (parents & HF & HM).
    { intros x Hx. apply H. right. exact Hx. }
    assert (Hr : In r (descendants soup)) by (apply H; left; reflexivity).
    destruct (descendants_parent soup r Hr) as (n & a & cs & _ & Hpar).
    exists (Tag n a cs :: parents). split.
    + constructor; assumption.
    + simpl. rewrite HM, (parent_text_of soup r (Tag n a cs) Hr Hpar).
      reflexivity.
Qed.

Lemma count_twice {A B} (dec : forall a b : B, {a = b} + {a <> b})
    (h : A -> B) (v : B) (x y : A) (l : list A) :
  In x l -> In y l -> x <> y -> h x = v -> h y = v ->
  2 <= count_occ dec (map h l) v.
Proof.
  intros Hx Hy Hxy Ex Ey.
  assert (one : forall z l', In z l' -> h z = v ->
                 1 <= count_occ dec (map h l') v).
  { intros z l' Hz Ez. apply (count_occ_In dec). rewrite <- Ez.
    apply in_map. exact Hz. }
  induction l as [|a l IH]; [destruct Hx|].
  simpl. destruct Hx as [-> | Hx], Hy as [-> | Hy].
  - contradiction.
  - destruct (dec (h x) v); [|contradiction].
    specialize (one y l Hy Ey). lia.
  - destruct (dec (h y) v); [|contradiction].
    specialize (one x l Hx Ex). lia.
  - specialize (IH Hx Hy). destruct (dec (h a) v); lia.
Qed.

Lemma is_important_spec (href text : str) :
  is_important href text = true
  <-> exists keyword, In keyword keywords
        /\ (Substring keyword (lower href)
            \/ Substring keyword (lower text)).
Proof.
  unfold is_important, any. rewrite existsb_exists.
  split; intros (k & Hk & H); exists k; (split; [exact Hk|]).
  - apply orb_true_iff in H. rewrite !contains_spec in H. exact H.
  - apply orb_true_iff. rewrite !contains_spec. exact H.
Qed.

(** The anchors kept, and the line printed for each. *)
Lemma links_Selected (l : list PageElement) :
  exists kept,
    Selected (important_link keywords glued_text) l kept
    /\ Forall2 (link_line glued_text) kept
         (flat_map link_lines
            (filter (search_tag (Some (MatchStr "a"))
                       [(lit "href", MatchTrue)]) l)).
Proof.
  induction l as [|e l (kept & HS & HF)].
  - exists []. split; constructor.
  - cbn [filter].
    destruct (search_tag (Some (MatchStr "a")) [(lit "href", MatchTrue)] e)
      eqn:Ha.
    + apply search_anchor in Ha. destruct Ha as (a & cs & href & -> & Hh).
      cbn [flat_map]. unfold link_lines at 1. cbn [href_of]. rewrite Hh.
      rewrite get_text_tag.
      destruct (is_important href (text_block [] (Tag "a" a cs))) eqn:Hi.
      * exists (Tag "a" a cs :: kept). split.
        -- apply Selected_keep; [|exact HS].
           exists a, cs, href. repeat split; auto.
           unfold glued_text. apply is_important_spec. exact Hi.
        -- cbn [app]. constructor; [|exact HF].
           exists href. split; [exact Hh | reflexivity].
      * exists kept. split; [|exact HF].
        apply Selected_skip; [|exact HS].
        intros (a' & cs' & href' & E & Hh' & Hk). inversion E; subst.
        rewrite Hh in Hh'. inversion Hh'; subst.
        unfold glued_text in Hk. apply is_important_spec in Hk.
        congruence.
    + exists kept. split; [|exact HF].
      apply Selected_skip; [|exact HS].
      intros (a & cs & href & E & Hh & _).
      assert (Ht : search_tag (Some (MatchStr "a"))
                     [(lit "href", MatchTrue)] e = true)
        by (apply search_anchor; eauto).
      congruence.
Qed.

(** ** Stripping *)

Lemma lstrip_fixed (s : str) : starts_nonspace s -> lstrip s = s.
Proof. destruct s as [|c s]; simpl; [tauto | intros ->; reflexivity]. Qed.

Lemma lstrip_result (s : str) : lstrip s = [] \/ starts_nonspace (lstrip s).
Proof.
  induction s as [|c s IH]; simpl; [left; reflexivity|].
  destruct (isspace c) eqn:Hc; [exact IH | right; exact Hc].
Qed.

Lemma lstrip_keeps_last (u : str) (c : ascii) :
  isspace c = false -> exists v, lstrip (u ++ [c]) = v ++ [c].
Proof.
  intros Hc. induction u as [|x u IH]; simpl.
  - rewrite Hc. exists []. reflexivity.
  - destruct (isspace x); [exact IH | exists (x :: u); reflexivity].
Qed.

Lemma starts_nonspace_app (a b : str) :
  starts_nonspace a -> starts_nonspace (a ++ b).
Proof. destruct a; simpl; tauto. Qed.

Lemma strip_fixed (s : str) :
  starts_nonspace s -> ends_nonspace s -> strip s = s.
Proof.
  intros Hs He. unfold strip, rstrip. rewrite (lstrip_fixed s Hs).
  rewrite (lstrip_fixed (rev s) He). apply rev_involutive.
Qed.

Lemma strip_cases (s : str) :
  strip s = [] \/ (starts_nonspace (strip s) /\ ends_nonspace (strip s)).
Proof.
  unfold strip, rstrip, ends_nonspace.
  destruct (lstrip_result s) as [E | H].
  - left. rewrite E. reflexivity.
  - right. destruct (lstrip s) as [|c t]; [destruct H|]. simpl in H.
    rewrite rev_involutive. simpl rev.
    destruct (lstrip_keeps_last (rev t) c H) as [v Ev]. rewrite Ev. split.
    + rewrite rev_app_distr. exact H.
    + destruct (lstrip_result (rev t ++ [c])) as [E | G].
      * rewrite Ev in E. destruct v; discriminate.
      * rewrite Ev in G. exact G.
Qed.

Lemma join_ends (sep : str) (l : list str) :
  Forall (fun r => starts_nonspace r /\ ends_nonspace r) l -> l <> [] ->
  starts_nonspace (join sep l) /\ ends_nonspace (join sep l).
Proof.
  induction l as [|p l IH]; intros HF Hne; [contradiction|].
  inversion HF as [|? ? [Hp1 Hp2] HF']; subst.
  destruct l as [|q l]; [exact (conj Hp1 Hp2)|].
  destruct (IH HF') as [_ He]; [discriminate|].
  change (join sep (p :: q :: l)) with (p ++ sep ++ join sep (q :: l)).
  split.
  - apply starts_nonspace_app. exact Hp1.
  - unfold ends_nonspace in *. rewrite !rev_app_distr, <- app_assoc.
    apply starts_nonspace_app. exact He.
Qed.

Lemma stripped_runs_good (e : PageElement) :
  Forall (fun r => starts_nonspace r /\ ends_nonspace r) (stripped_runs e).
Proof.
  unfold stripped_runs. apply Forall_forall. intros r Hr.
  apply filter_In in Hr. destruct Hr as [Hr Ht].
  apply in_map_iff in Hr. destruct Hr as (s & <- & _).
  destruct (strip_cases s) as [E | H]; [|exact H].
  rewrite E in Ht. discriminate.
Qed.

(** Every run of a block is non-empty and already stripped. *)
Lemma stripped_runs_stripped (e : PageElement) :
  Forall (fun run => run <> [] /\ strip run = run) (stripped_runs e).
Proof.
  eapply Forall_impl; [|apply stripped_runs_good].
  intros r [Hs He]. split.
  - destruct r; [destruct Hs | discriminate].
  - apply strip_fixed; assumption.
Qed.

(** A block has no whitespace at either end, whatever the separator. *)
Lemma text_block_stripped (sep : str) (e : PageElement) :
  strip (text_block sep e) = text_block sep e.
Proof.
  unfold text_block. destruct (stripped_runs e) as [|r l] eqn:E.
  - reflexivity.
  - destruct (join_ends sep (r :: l)) as [Hs He].
    + rewrite <- E. apply stripped_runs_good.
    + discriminate.
    + apply strip_fixed; assumption.
Qed.

(** ** The whole script *)

Lemma render_app (a b : list str) : render (a ++ b) = render a ++ render b.
Proof. apply flat_map_app. Qed.

Lemma links_block_total soup :
  prints (links_block soup) (printed_by (links_block soup)).
Proof. eapply prints_what_it_prints, links_block_prints. Qed.

Lemma features_block_total soup :
  prints (features_block soup) (printed_by (features_block soup)).
Proof. eapply prints_what_it_prints, features_block_prints. Qed.

Lemma testimonials_block_total soup :
  prints (testimonials_block soup) (printed_by (testimonials_block soup)).
Proof. eapply prints_what_it_prints, testimonials_block_prints. Qed.

Section Runs.

Variable BeautifulSoup : str -> PageElement.

(** When the file can be read, [parse_file] ends normally, having
    printed the report of the parsed text and changed no file. *)
Lemma parse_file_report filename html w :
  files w filename = inr html ->
  parse_file BeautifulSoup filename w
  = (inr tt, mkWorld (files w)
               (stdout w ++ report (BeautifulSoup html) filename)).
Proof.
  intros Hf. unfold parse_file, bind at 1, read_text. rewrite Hf.
  set (soup := BeautifulSoup html).
  pose proof (fun s k o => prints_bind (print s) k [s] o (prints_print s))
    as step.
  unfold report. fold soup.
  apply step, prints_bind; [apply title_block_prints|].
  apply step, prints_bind; [apply features_block_total|].
  apply step, prints_bind; [apply pricing_block_total|].
  apply step, prints_bind; [apply testimonials_block_total|].
  apply step, prints_bind; [apply footer_block_total|].
  apply step, links_block_total.
Qed.

(** When the file cannot be read, the exception leaves the script before
    anything is printed. *)
Lemma parse_file_error filename e w :
  files w filename = inl e ->
  parse_file BeautifulSoup filename w = (inl e, w).
Proof.
  intros Hf. unfold parse_file, bind at 1, read_text. rewrite Hf.
  reflexivity.
Qed.

End Runs.

(** ** Documents for the examples: helpers *)

Lemma none_by_search name attrs (P : PageElement -> Prop)
    (l : list PageElement) :
  (forall e, search_tag name attrs e = true <-> P e) ->
  forallb (fun e => negb (search_tag name attrs e)) l = true ->
  forall e, In e l -> ~ P e.
Proof.
  intros HP Hall e He Pe. rewrite forallb_forall in Hall.
  specialize (Hall e He). apply HP in Pe. rewrite Pe in Hall.
  discriminate.
Qed.

Lemma no_pricing_by_search (l : list PageElement) :
  forallb (fun e => negb (search_tag section_or_div
                            [(lit "id", MatchStr "pricing")] e)) l = true ->
  forall e, In e l -> ~ section_with_id [lit "pricing"] e.
Proof.
  apply none_by_search. intros e. apply search_section_id. discriminate.
Qed.

Lemma no_footer_by_search (l : list PageElement) :
  forallb (fun e => negb (search_tag (Some (MatchStr "footer")) [] e)) l
  = true ->
  forall e, In e l -> ~ tag_named "footer" e.
Proof. apply none_by_search. apply search_named. Qed.

(** * The claims *)

(** ** Title *)

Lemma title_absent soup :
  (forall e, In e (nodes soup) -> ~ tag_named "title" e) ->
  prints (title_block soup) [lit "Title: No Title"].
Proof.
  intros Hn w. unfold title_block, soup_title.
  rewrite (find_none (Some (MatchStr "title")) [] _ soup
             (search_named "title") Hn).
  reflexivity.
Qed.

Lemma title_single_string soup before a k s after :
  nodes soup = before ++ Tag "title" a [Text k s] :: after ->
  (forall e, In e before -> ~ tag_named "title" e) ->
  prints (title_block soup) [lit "Title: " ++ s].
Proof.
  intros E Hb w. unfold title_block, soup_title.
  destruct (find_first (Some (MatchStr "title")) [] _ soup before _ after
              (search_named "title") E) as (r & Hr & Er); auto.
  { exists a, [Text k s]. reflexivity. }
  rewrite Hr, Er. reflexivity.
Qed.

(** C1, where the code departs from it: for the document
    [<html><head><title></title></head></html>], whose [<title>] element
    has the empty text content, the claim asks for the line ["Title: "];
    the script prints ["Title: None"], because [Tag.string] is [None] for
    a tag without exactly one child. A title with several children, as in
    [<title>A<b>c</b></title>], prints the same. *)
Theorem C1_empty_title_prints_None :
  let title := elem "title" [] [] in
  let soup := document [elem "html" [] [elem "head" [] [title]]] in
  let nested :=
    document [elem "title" [] [txt "A"; elem "b" [] [txt "c"]]] in
  nodes soup = [elem "html" [] [elem "head" [] [title]];
                elem "head" [] [title]; title]
  /\ text_block [] title = []
  /\ printed_by (title_block soup) = [lit "Title: None"]
  /\ printed_by (title_block nested) = [lit "Title: None"].
Proof. repeat split. Qed.

(** ** Features *)

(** C6. For every document, the Features section prints exactly one
    block per [<section>] or [<div>] whose [id] attribute is exactly
    ["features"] or ["how-it-works"], in document order, each block being
    the stripped text runs of the element joined by a newline, and nothing
    else. *)
Theorem C6_features_exact (soup : PageElement) :
  exists kept,
    Selected (section_with_id [lit "features"; lit "how-it-works"])
      (nodes soup) kept
    /\ prints (features_block soup) (map (text_block [newline]) kept).
Proof.
  exists (map snd (find_all section_or_div
            [(lit "id", MatchAny [lit "features"; lit "how-it-works"])]
            soup)).
  split.
  - apply find_all_Selected. intros e. apply search_section_ids.
    discriminate.
  - apply features_block_prints.
Qed.

Example features_edge_cases :
  printed_by (features_block
    (document
       [elem "div" [("id", "Features")] [txt "wrong case"];
        elem "div" [("id", "features ")] [txt "trailing space"];
        elem "p" [("id", "features")] [txt "wrong tag"];
        elem "div" [("class", "features")] [txt "class, not id"];
        elem "section" [("id", "how-it-works")]
          [txt " outer "; elem "div" [("id", "features")] [txt "inner"];
           elem "script" [] [Text Script "var x"]; txt "   "]]))
  = [lit "outer" ++ [newline] ++ lit "inner"; lit "inner"].
Proof. reflexivity. Qed.

(** ** Pricing *)


(** C7. In the price search, when two different leaf strings that both
    contain [$] are children of the same tag, the text of that tag is
    printed at least twice: there is one [print] per matching string,
    and the shared parent is not printed once only. *)
Theorem C7_shared_parent_twice (soup par : PageElement) (q : path)
    (i j : nat) (k1 k2 : StringKind) (s1 s2 : str) :
  (forall e, In e (nodes soup) -> ~ section_with_id [lit "pricing"] e) ->
  resolve soup q = Some par ->
  nth_error (children par) i = Some (Text k1 s1) ->
  nth_error (children par) j = Some (Text k2 s2) ->
  i <> j -> In dollar s1 -> In dollar s2 ->
  exists out texts,
    prints (pricing_block soup) out
    /\ Selected (fun r => dollar_text (snd r)) (descendants soup) texts
    /\ List.length out = List.length texts
    /\ 2 <= count_occ str_dec out (text_block [] par).
Proof.
  intros Hn Hq Hi Hj Hij H1 H2.
  exists (map (parent_text soup)
            (find_all_string (fun t => contains [dollar] t) soup)).
  exists (find_all_string (fun t => contains [dollar] t) soup).
  split; [apply pricing_block_absent; exact Hn|].
  split; [apply Selected_filter; intros r _; apply dollar_text_spec|].
  split; [apply length_map|].
  pose proof (child_in_descendants soup q par i _ Hq Hi) as D1.
  pose proof (child_in_descendants soup q par j _ Hq Hj) as D2.
  apply (count_twice str_dec (parent_text soup) _
           (q ++ [i], Text k1 s1) (q ++ [j], Text k2 s2)).
  - apply filter_In. split; [exact D1|].
    apply (dollar_text_spec (Text k1 s1)). exists k1, s1. auto.
  - apply filter_In. split; [exact D2|].
    apply (dollar_text_spec (Text k2 s2)). exists k2, s2. auto.
  - intros E. inversion E as [[E1 E2]]. apply app_inj_tail in E1.
    destruct E1 as [_ E1]. contradiction.
  - apply parent_text_of; [exact D1|]. exists q, i. auto.
  - apply parent_text_of; [exact D2|]. exists q, j. auto.
Qed.


Lemma C7_shared_parent_twice_witness :
  exists out texts,
    prints (pricing_block sample) out
    /\ Selected (fun r => dollar_text (snd r)) (descendants sample) texts
    /\ List.length out = List.length texts
    /\ 2 <= count_occ str_dec out (lit "Only $5nowor $9").
Proof.
  apply (C7_shared_parent_twice sample sample_prices [0; 1; 1] 0 2
           NavigableString NavigableString "Only $5" "or $9").
  - apply no_pricing_by_search. reflexivity.
  - reflexivity.
  - reflexivity.
  - reflexivity.
  - discriminate.
  - apply contains_char. reflexivity.
  - apply contains_char. reflexivity.
Defined.

(** ** Footer *)

(** C4. When the document has a [<footer>] element, the Footer section
    prints the newline-joined stripped text of the first one and nothing
    more. When it has none, the section prints one such block per [<div>]
    whose raw [class] attribute, put in lower case, contains ["footer"]
    as a substring, in document order. *)
Theorem C4_footer (soup : PageElement) :
  (forall before f after,
     nodes soup = before ++ f :: after ->
     tag_named "footer" f ->
     (forall e, In e before -> ~ tag_named "footer" e) ->
     prints (footer_block soup) [text_block [newline] f])
  /\ ((forall e, In e (nodes soup) -> ~ tag_named "footer" e) ->
      exists kept,
        Selected footer_div (nodes soup) kept
        /\ prints (footer_block soup) (map (text_block [newline]) kept)).
Proof.
  split.
  - apply footer_block_found.
  - intros Hn.
    exists (map snd (find_all (Some (MatchStr "div"))
              [(lit "class", MatchFn footer_class)] soup)).
    split.
    + apply find_all_Selected. apply search_footer_div.
    + apply footer_block_absent. exact Hn.
Qed.

Lemma C4_footer_witness :
  prints (footer_block footer_page)
    [lit "(c) Acme" ++ [newline] ++ lit "Terms"]
  /\ exists kept,
       Selected footer_div (nodes sample) kept
       /\ prints (footer_block sample) (map (text_block [newline]) kept).
Proof.
  split.
  - apply (proj1 (C4_footer footer_page)
             [elem "div" [("class", "page-footer")] [txt "links"];
              txt "links"]
             (elem "footer" []
                [txt " (c) Acme "; elem "a" [("href", "/terms")] [txt "Terms"]])
             [txt " (c) Acme "; elem "a" [("href", "/terms")] [txt "Terms"];
              txt "Terms"; elem "footer" [] [txt "second"]; txt "second"]).
    + reflexivity.
    + exists [],
        [txt " (c) Acme "; elem "a" [("href", "/terms")] [txt "Terms"]].
      reflexivity.
    + apply no_footer_by_search. reflexivity.
  - apply (proj2 (C4_footer sample)).
    apply no_footer_by_search. reflexivity.
Defined.

Example footer_edge_cases :
  printed_by (footer_block
    (document
       [elem "div" [("class", "dark  Site-FOOTER")] [txt "one"];
        elem "div" [("class", "foo ter")] [txt "split word"];
        elem "div" [("id", "footer")] [txt "id, not class"];
        elem "span" [("class", "footer")] [txt "not a div"];
        elem "div" [("class", "x footer-nav")]
          [elem "div" [("class", "subfooter")] [txt "two"]]]))
  = [lit "one"; lit "two"; lit "two"].
Proof. reflexivity. Qed.

(** ** Important Links *)

(** C5, as stated, fails: the text that is tested and printed is not
    the trimmed visible text of the anchor. For
    [<a href="/x">sup <b>port</b></a>] the trimmed visible text is
    ["sup port"], and neither it nor ["/x"] contains a keyword; yet the
    section prints the anchor, as ["support: /x"], because [get_text]
    strips each run and glues the runs. *)
Lemma C5_trimmed_text_counterexample :
  let a := elem "a" [("href", "/x")] [txt "sup "; elem "b" [] [txt "port"]] in
  let soup := document [a] in
  trimmed_text a = lit "sup port"
  /\ ~ important_link
        [lit "chrome"; lit "extension"; lit "privacy"; lit "terms";
         lit "about"; lit "blog"; lit "support"] trimmed_text a
  /\ printed_by (links_block soup) = [lit "support: /x"]
  /\ ~ In (trimmed_text a ++ lit ": " ++ lit "/x")
          (printed_by (links_block soup)).
Proof.
  intros a soup. split; [reflexivity|]. split; [|split].
  - intros (attrs & cs & href & E & Hh & k & Hk & H).
    inversion E; subst. vm_compute in Hh. inversion Hh; subst.
    repeat (destruct Hk as [<- | Hk];
            [destruct H as [H | H]; apply contains_spec in H;
             vm_compute in H; discriminate|]).
    destruct Hk.
  - reflexivity.
  - intros [H | []]. discriminate.
Qed.

(** C5, amended. The Important Links section prints one line per kept
    anchor, in document order, and nothing else; an anchor is kept if and
    only if it is an [<a>] with an [href] attribute (an empty value
    counts) such that the [href] value, or the glued text of the anchor
    (its text runs, each stripped, with nothing in between), contains one
    of [chrome], [extension], [privacy], [terms], [about], [blog],
    [support] once put in lower case; the line is the glued text, then
    [": "], then the [href] value, so an anchor without text prints with
    an empty left side. *)
Theorem C5_links (soup : PageElement) :
  exists kept lines,
    Selected
      (important_link
         [lit "chrome"; lit "extension"; lit "privacy"; lit "terms";
          lit "about"; lit "blog"; lit "support"] glued_text)
      (nodes soup) kept
    /\ Forall2 (link_line glued_text) kept lines
    /\ prints (links_block soup) lines.
Proof.
  destruct (links_Selected (nodes soup)) as (kept & HS & HF).
  exists kept. eexists. split; [exact HS|]. split; [exact HF|].
  unfold nodes. rewrite <- filter_map_snd. apply links_block_prints.
Qed.

Example links_edge_cases :
  printed_by (links_block
    (document
       [elem "a" [("href", "")] [txt " Support "];
        elem "a" [("href", "/BLOG")] [];
        elem "a" [("name", "about")] [txt "About"];
        elem "a" [("href", "/random")] [txt "Random"];
        elem "a" [("href", "/x")] [txt "Pri"; elem "b" [] [txt "vacy"]]]))
  = [lit "Support: "; lit ": /BLOG"; lit "Privacy: /x"].
Proof. reflexivity. Qed.

(** ** Text joining *)

(** C2, as stated, fails: the parent printed by the price search is not
    joined by newlines. For [<p>Only $5<i> now </i>or $9</p>] the search
    prints ["Only $5nowor $9"] (once per matching string), while the
    newline-joined block would be the three lines ["Only $5"], ["now"],
    ["or $9"]. *)
Lemma C2_price_search_not_newline_joined :
  let soup := document [sample_prices] in
  printed_by (pricing_block soup)
  = [lit "Only $5nowor $9"; lit "Only $5nowor $9"]
  /\ text_block [newline] sample_prices
     = lit "Only $5" ++ [newline] ++ lit "now" ++ [newline] ++ lit "or $9"
  /\ ~ In (text_block [newline] sample_prices)
          (printed_by (pricing_block soup)).
Proof.
  repeat split. intros [H | [H | []]]; discriminate.
Qed.

(** C2, amended. Every block the script prints is made of the text runs
    of one element of the document, each run stripped, the runs that are
    empty once stripped left out:
    - Features and Testimonials print, for each [<section>] or [<div>]
      with one of their ids, in document order, its runs joined by a
      newline;
    - Footer prints the runs of the first [<footer>] joined by a newline
      or, without a [<footer>], those of each [<div>] with ["footer"] in
      its class;
    - Pricing prints the runs of the first element with [id="pricing"]
      joined by a newline; without such an element it prints, for each
      string that contains [$], the runs of the parent of that string
      glued with no separator at all.
    No block has whitespace at either end. *)
Theorem C2_text_joining (soup : PageElement) :
  (exists kept,
     Selected (section_with_id [lit "features"; lit "how-it-works"])
       (nodes soup) kept
     /\ prints (features_block soup) (map (text_block [newline]) kept))
  /\ (exists kept,
        Selected (section_with_id [lit "testimonials"; lit "success"])
          (nodes soup) kept
        /\ prints (testimonials_block soup)
             (map (text_block [newline]) kept))
  /\ (forall before f after,
        nodes soup = before ++ f :: after ->
        tag_named "footer" f ->
        (forall e, In e before -> ~ tag_named "footer" e) ->
        prints (footer_block soup) [text_block [newline] f])
  /\ ((forall e, In e (nodes soup) -> ~ tag_named "footer" e) ->
      exists kept,
        Selected footer_div (nodes soup) kept
        /\ prints (footer_block soup) (map (text_block [newline]) kept))
  /\ (forall before s after,
        nodes soup = before ++ s :: after ->
        section_with_id [lit "pricing"] s ->
        (forall e, In e before -> ~ section_with_id [lit "pricing"] e) ->
        prints (pricing_block soup) [text_block [newline] s])
  /\ ((forall e, In e (nodes soup) -> ~ section_with_id [lit "pricing"] e) ->
      exists texts parents,
        Selected (fun r => dollar_text (snd r)) (descendants soup) texts
        /\ Forall2 (parent_of soup) texts parents
        /\ prints (pricing_block soup) (map (text_block []) parents))
  /\ (forall sep e,
        text_block sep e
        = join sep (filter str_truthy (map strip (text_runs e)))
        /\ Forall (fun run => run <> [] /\ strip run = run)
             (stripped_runs e)
        /\ strip (text_block sep e) = text_block sep e).
Proof.
  split; [|split; [|split; [|split; [|split; [|split]]]]].
  - eexists. split; [|apply features_block_prints].
    apply find_all_Selected. intros e. apply search_section_ids.
    discriminate.
  - eexists. split; [|apply testimonials_block_prints].
    apply find_all_Selected. intros e. apply search_section_ids.
    discriminate.
  - apply footer_block_found.
  - intros Hn. eexists. split; [|apply footer_block_absent; exact Hn].
    apply find_all_Selected. apply search_footer_div.
  - apply pricing_block_found.
  - intros Hn.
    destruct (parents_of_matches soup
                (find_all_string (fun t => contains [dollar] t) soup))
      as (parents & HF & HM).
    { intros r. apply find_all_string_descendant. }
    eexists. exists parents. split; [|split; [exact HF|]].
    + apply Selected_filter. intros r _. apply dollar_text_spec.
    + rewrite <- HM. apply pricing_block_absent. exact Hn.
  - intros sep e. split; [reflexivity|]. split.
    + apply stripped_runs_stripped.
    + apply text_block_stripped.
Qed.

Lemma C2_text_joining_witness :
  prints (footer_block footer_page)
    [lit "(c) Acme" ++ [newline] ++ lit "Terms"]
  /\ (exists kept,
        Selected footer_div (nodes sample) kept
        /\ prints (footer_block sample) (map (text_block [newline]) kept))
  /\ prints (pricing_block pricing_page)
       [lit "$9/mo" ++ [newline] ++ lit "billed yearly"]
  /\ (exists texts parents,
        Selected (fun r => dollar_text (snd r)) (descendants sample) texts
        /\ Forall2 (parent_of sample) texts parents
        /\ prints (pricing_block sample) (map (text_block []) parents)).
Proof.
  pose proof (C2_text_joining footer_page) as (_ & _ & F1 & _).
  pose proof (C2_text_joining sample) as (_ & _ & _ & F2 & _ & P2 & _).
  pose proof (C2_text_joining pricing_page) as (_ & _ & _ & _ & P1 & _).
  split; [|split; [|split]].
  - apply (F1 [elem "div" [("class", "page-footer")] [txt "links"];
               txt "links"]
              (elem "footer" []
                 [txt " (c) Acme ";
                  elem "a" [("href", "/terms")] [txt "Terms"]])
              [txt " (c) Acme "; elem "a" [("href", "/terms")] [txt "Terms"];
               txt "Terms"; elem "footer" [] [txt "second"]; txt "second"]).
    + reflexivity.
    + exists [],
        [txt " (c) Acme "; elem "a" [("href", "/terms")] [txt "Terms"]].
      reflexivity.
    + apply no_footer_by_search. reflexivity.
  - apply F2. apply no_footer_by_search. reflexivity.
  - apply (P1 [elem "h1" [] [txt "Plans"]; txt "Plans"]
              (elem "section" [("id", "pricing")]
                 [txt " $9/mo "; elem "b" [] [txt "billed yearly"]])
              [txt " $9/mo "; elem "b" [] [txt "billed yearly"];
               txt "billed yearly"; elem "p" [] [txt "Only $5"];
               txt "Only $5"; elem "div" [("id", "pricing")] [txt "$7"];
               txt "$7"]).
    + reflexivity.
    + apply search_section_id; [discriminate | reflexivity].
    + apply no_pricing_by_search. reflexivity.
  - apply P2. apply no_pricing_by_search. reflexivity.
Defined.

(** ** The layout of the report *)

Lemma followed_by_blank_b_false (lines : list str) (h : str) :
  followed_by_blank_b lines h = false -> ~ followed_by_blank lines h.
Proof.
  intros Hnone (i & H1 & H2).
  assert (Hi : i < List.length lines)
    by (apply nth_error_Some; rewrite H1; discriminate).
  assert (Hex : followed_by_blank_b lines h = true).
  { apply existsb_exists. exists i. split.
    - apply in_seq. lia.
    - rewrite H1, H2. apply str_eqb_refl. }
  congruence.
Qed.

(** C8, as stated, fails: a header is not followed by a blank line. In
    the report of [sample] the line after [--- Analysis of x.html ---]
    is the title line, and the line after [[Features / How it works]],
    [[Pricing]], [[Footer]] and [[Important Links]] is the first line of
    that section's results. *)
Lemma C8_header_not_followed_by_blank :
  let out := stdout (snd (parse_file (fun _ => sample) "x.html"
                            (world_with [] []))) in
  let lines := lines_of (render out) in
  Forall (fun h => In h (section_headers "x.html")
                   /\ ~ followed_by_blank lines h)
    [lit "--- Analysis of x.html ---"; lit "[Features / How it works]";
     lit "[Pricing]"; lit "[Footer]"; lit "[Important Links]"]
  /\ ~ (forall h, In h (section_headers "x.html") ->
                  followed_by_blank lines h).
Proof.
  intros out lines.
  assert (HF : Forall (fun h => In h (section_headers "x.html")
                                /\ ~ followed_by_blank lines h)
                 [lit "--- Analysis of x.html ---";
                  lit "[Features / How it works]";
                  lit "[Pricing]"; lit "[Footer]";
                  lit "[Important Links]"]).
  { repeat constructor;
      try (apply followed_by_blank_b_false; vm_compute; reflexivity);
      vm_compute; tauto. }
  split; [exact HF|].
  intros H. inversion HF as [|? ? [Hin Hno] _]; subst.
  apply Hno, H, Hin.
Qed.

Example sample_lines :
  map string_of_list_ascii
    (lines_of (render (report sample "x.html")))
  = ["--- Analysis of x.html ---"; "Title: Acme"; "";
     "[Features / How it works]"; "Fast"; "and"; "cheap"; "";
     "[Pricing]"; "Only $5nowor $9"; "Only $5nowor $9"; "";
     "[Testimonials]"; ""; "[Footer]"; "Contact us"; "";
     "[Important Links]"; "Policy: /privacy-policy"; ""]%string.
Proof. reflexivity. Qed.

Lemma render_one (s : str) : render [s] = s ++ [newline].
Proof. unfold render. simpl. apply app_nil_r. Qed.

(** C8, amended. For every file that can be read, the script ends
    normally and what it writes is, in this order: the line
    [--- Analysis of <filename> ---]; directly after it the title line;
    then for each of [[Features / How it works]], [[Pricing]],
    [[Testimonials]], [[Footer]], [[Important Links]] an empty line, the
    header on a line of its own, and directly after it what that section
    prints. *)
Theorem C8_layout (BeautifulSoup : str -> PageElement)
    (filename html : str) (w : World) :
  files w filename = inr html ->
  let soup := BeautifulSoup html in
  exists out title,
    parse_file BeautifulSoup filename w
    = (inr tt, mkWorld (files w) (stdout w ++ out))
    /\ render out
       = lit "--- Analysis of " ++ filename ++ lit " ---" ++ [newline]
         ++ lit "Title: " ++ title ++ [newline]
         ++ [newline] ++ lit "[Features / How it works]" ++ [newline]
         ++ render (printed_by (features_block soup))
         ++ [newline] ++ lit "[Pricing]" ++ [newline]
         ++ render (printed_by (pricing_block soup))
         ++ [newline] ++ lit "[Testimonials]" ++ [newline]
         ++ render (printed_by (testimonials_block soup))
         ++ [newline] ++ lit "[Footer]" ++ [newline]
         ++ render (printed_by (footer_block soup))
         ++ [newline] ++ lit "[Important Links]" ++ [newline]
         ++ render (printed_by (links_block soup)).
Proof.
  intros Hf soup.
  exists (report soup filename).
  exists (format_value
            match soup_title soup with
            | Some t =>
                if truthy (snd t) then string_of (snd t)
                else Some (lit "No Title")
            | None => Some (lit "No Title")
            end).
  split.
  - apply parse_file_report. exact Hf.
  - unfold report. rewrite !render_app, !render_one.
    change (printed_by (title_block soup))
      with [lit "Title: " ++ format_value
              match soup_title soup with
              | Some t =>
                  if truthy (snd t) then string_of (snd t)
                  else Some (lit "No Title")
              | None => Some (lit "No Title")
              end].
    rewrite render_one. repeat rewrite <- app_assoc. reflexivity.
Qed.

Lemma C8_layout_witness :
  exists out title,
    parse_file (fun _ => sample) "x.html" (world_with [] [])
    = (inr tt, mkWorld (files (world_with [] [])) ([] ++ out))
    /\ render out
       = lit "--- Analysis of " ++ lit "x.html" ++ lit " ---" ++ [newline]
         ++ lit "Title: " ++ title ++ [newline]
         ++ [newline] ++ lit "[Features / How it works]" ++ [newline]
         ++ render (printed_by (features_block sample))
         ++ [newline] ++ lit "[Pricing]" ++ [newline]
         ++ render (printed_by (pricing_block sample))
         ++ [newline] ++ lit "[Testimonials]" ++ [newline]
         ++ render (printed_by (testimonials_block sample))
         ++ [newline] ++ lit "[Footer]" ++ [newline]
         ++ render (printed_by (footer_block sample))
         ++ [newline] ++ lit "[Important Links]" ++ [newline]
         ++ render (printed_by (links_block sample)).
Proof.
  apply (C8_layout (fun _ => sample) "x.html" [] (world_with [] [])).
  reflexivity.
Defined.

(** ** Runs of the program *)



(** C10. With more than one command-line argument, the first is the
    file that is read and the others are ignored: the run is the run
    with that first argument alone. *)
Theorem C10_extra_arguments_ignored (BeautifulSoup : str -> PageElement)
    (program filename extra : str) (others : list str) (w : World) :
  main BeautifulSoup (program :: filename :: extra :: others) w
  = main BeautifulSoup [program; filename] w
  /\ main BeautifulSoup (program :: filename :: extra :: others) w
     = parse_file BeautifulSoup filename w.
Proof. split; reflexivity. Qed.

(** * Further properties of the script *)

(** ** Lemmas *)

Lemma Selected_none {A} (P : A -> Prop) (l kept : list A) :
  Selected P l kept -> (kept = [] <-> forall x, In x l -> ~ P x).
Proof.
  induction 1 as [| x l kept Px _ IH | x l kept nPx _ IH].
  - split; [intros _ x [] | reflexivity].
  - split; [discriminate|]. intros H. exfalso.
    apply (H x); [left; reflexivity | exact Px].
  - rewrite IH. split.
    + intros H y [<- | Hy]; [exact nPx | apply H; exact Hy].
    + intros H y Hy. apply H. right. exact Hy.
Qed.

Lemma map_nil_iff {A B} (f : A -> B) (l : list A) : map f l = [] <-> l = [].
Proof. destruct l; simpl; split; intros H; (reflexivity || discriminate). Qed.

Lemma Forall2_nil_iff {A B} (R : A -> B -> Prop) (a : list A)
    (b : list B) :
  Forall2 R a b -> (a = [] <-> b = []).
Proof.
  intros H. destruct H; split; intros E; (reflexivity || discriminate).
Qed.

Lemma found_none name attrs (P : PageElement -> Prop) soup :
  (forall e, search_tag name attrs e = true <-> P e) ->
  (map snd (find_all name attrs soup) = []
   <-> forall e, In e (nodes soup) -> ~ P e).
Proof.
  intros HP. apply Selected_none. apply find_all_Selected. exact HP.
Qed.

Lemma find_Some_found name attrs soup r :
  find name attrs soup = Some r ->
  In (snd r) (nodes soup) /\ search_tag name attrs (snd r) = true.
Proof.
  unfold find. intros H.
  destruct (find_all name attrs soup) as [|r' l] eqn:E; [discriminate|].
  inversion H; subst.
  assert (Hr : In r (find_all name attrs soup))
    by (rewrite E; left; reflexivity).
  apply filter_In in Hr. destruct Hr as [Hin Hr].
  split; [apply in_map; exact Hin | exact Hr].
Qed.

Lemma find_None_found name attrs soup :
  find name attrs soup = None -> find_all name attrs soup = [].
Proof.
  unfold find. destruct (find_all name attrs soup); [reflexivity|].
  discriminate.
Qed.

(** ** Testimonials *)

(** X1. The Testimonials section prints exactly one block per
    [<section>] or [<div>] whose [id] attribute is exactly
    ["testimonials"] or ["success"], in document order, each block being
    the stripped text runs of the element joined by a newline, and nothing
    else. *)
Theorem X1_testimonials_exact (soup : PageElement) :
  exists kept,
    Selected (section_with_id [lit "testimonials"; lit "success"])
      (nodes soup) kept
    /\ prints (testimonials_block soup) (map (text_block [newline]) kept).
Proof.
  exists (map snd (find_all section_or_div
            [(lit "id", MatchAny [lit "testimonials"; lit "success"])]
            soup)).
  split.
  - apply find_all_Selected. intros e. apply search_section_ids.
    discriminate.
  - apply testimonials_block_prints.
Qed.

(** ** Sections that print nothing *)

(** X2. The Features section prints nothing if and only if no node of the
    document is a [<section>] or [<div>] with [id] ["features"] or
    ["how-it-works"], and likewise the Testimonials section for the ids
    ["testimonials"] and ["success"]: an element that matches always gives
    a [print], even when it has no text. *)
Theorem X2_id_sections_empty (soup : PageElement) :
  (printed_by (features_block soup) = []
   <-> forall e, In e (nodes soup) ->
         ~ section_with_id [lit "features"; lit "how-it-works"] e)
  /\ (printed_by (testimonials_block soup) = []
      <-> forall e, In e (nodes soup) ->
            ~ section_with_id [lit "testimonials"; lit "success"] e).
Proof.
  split.
  - rewrite (prints_printed_by _ _ (features_block_prints soup)).
    rewrite map_nil_iff. apply found_none. intros e.
    apply search_section_ids. discriminate.
  - rewrite (prints_printed_by _ _ (testimonials_block_prints soup)).
    rewrite map_nil_iff. apply found_none. intros e.
    apply search_section_ids. discriminate.
Qed.

(** X3. The Pricing section prints nothing if and only if the document
    has no [<section>] or [<div>] with [id] ["pricing"] and no leaf string
    that contains [$]. *)
Theorem X3_pricing_empty (soup : PageElement) :
  printed_by (pricing_block soup) = []
  <-> (forall e, In e (nodes soup) -> ~ section_with_id [lit "pricing"] e)
      /\ (forall e, In e (nodes soup) -> ~ dollar_text e).
Proof.
  assert (HP : forall e,
            search_tag section_or_div [(lit "id", MatchStr "pricing")] e
            = true <-> section_with_id [lit "pricing"] e)
    by (intros e; apply search_section_id; discriminate).
  destruct (find section_or_div [(lit "id", MatchStr "pricing")] soup)
    as [s|] eqn:Hf.
  - destruct (find_Some_found _ _ _ _ Hf) as [Hin Hs].
    destruct (search_tag_is_tag _ _ _ Hs) as (n & a & cs & Es).
    unfold pricing_block. rewrite Hf, Es. simpl truthy. split.
    + discriminate.
    + intros [Hn _]. exfalso. apply (Hn (snd s) Hin). apply HP. exact Hs.
  - assert (Hn : forall e, In e (nodes soup) ->
                   ~ section_with_id [lit "pricing"] e).
    { apply (found_none _ _ _ soup HP).
      rewrite (find_None_found _ _ _ Hf). reflexivity. }
    rewrite (prints_printed_by _ _ (pricing_block_absent soup Hn)).
    rewrite map_nil_iff.
    assert (HS : Selected (fun r => dollar_text (snd r)) (descendants soup)
                   (find_all_string (fun t => contains [dollar] t) soup))
      by (apply Selected_filter; intros r _; apply dollar_text_spec).
    rewrite (Selected_none _ _ _ HS). split.
    + intros H. split; [exact Hn|]. intros e He.
      unfold nodes in He. apply in_map_iff in He.
      destruct He as (r & <- & Hr). apply H. exact Hr.
    + intros [_ H] r Hr. apply H. unfold nodes. apply in_map. exact Hr.
Qed.

(** X4. The Footer section prints nothing if and only if the document
    has no [<footer>] element and no [<div>] whose raw [class] attribute,
    in lower case, contains ["footer"]. *)
Theorem X4_footer_empty (soup : PageElement) :
  printed_by (footer_block soup) = []
  <-> (forall e, In e (nodes soup) -> ~ tag_named "footer" e)
      /\ (forall e, In e (nodes soup) -> ~ footer_div e).
Proof.
  destruct (find (Some (MatchStr "footer")) [] soup) as [s|] eqn:Hf.
  - destruct (find_Some_found _ _ _ _ Hf) as [Hin Hs].
    destruct (search_tag_is_tag _ _ _ Hs) as (n & a & cs & Es).
    unfold footer_block. rewrite Hf, Es. simpl truthy. split.
    + discriminate.
    + intros [Hn _]. exfalso. apply (Hn (snd s) Hin).
      apply search_named. exact Hs.
  - assert (Hn : forall e, In e (nodes soup) -> ~ tag_named "footer" e).
    { apply (found_none _ _ _ soup (search_named "footer")).
      rewrite (find_None_found _ _ _ Hf). reflexivity. }
    rewrite (prints_printed_by _ _ (footer_block_absent soup Hn)).
    rewrite map_nil_iff, (found_none _ _ _ soup search_footer_div).
    tauto.
Qed.

(** X5. The Important Links section prints nothing if and only if no
    node of the document is an [<a>] with an [href] such that the [href]
    value, or the glued text of the anchor (its text runs, each stripped,
    with nothing in between), contains one of [chrome], [extension],
    [privacy], [terms], [about], [blog], [support] once put in lower
    case. *)
Theorem X5_links_empty (soup : PageElement) :
  printed_by (links_block soup) = []
  <-> forall e, In e (nodes soup) ->
        ~ important_link
            [lit "chrome"; lit "extension"; lit "privacy"; lit "terms";
             lit "about"; lit "blog"; lit "support"] glued_text e.
Proof.
  rewrite (prints_printed_by _ _ (links_block_prints soup)).
  unfold find_all. rewrite filter_map_snd. fold (nodes soup).
  destruct (links_Selected (nodes soup)) as (kept & HS & HF).
  rewrite <- (Selected_none _ _ _ HS). symmetry.
  apply (Forall2_nil_iff _ _ _ HF).
Qed.

(** ** The title line *)

(** X6. When no node of the document is a [<title>] element, the title
    line is exactly ["Title: No Title"]. *)
Theorem X6_title_absent (soup : PageElement) :
  (forall e, In e (nodes soup) -> ~ tag_named "title" e) ->
  prints (title_block soup) [lit "Title: No Title"].
Proof.
  intros Hn w. unfold title_block, soup_title.
  rewrite (find_none (Some (MatchStr "title")) [] _ soup
             (search_named "title") Hn).
  reflexivity.
Qed.

Lemma X6_title_absent_witness :
  prints (title_block footer_page) [lit "Title: No Title"].
Proof.
  apply (X6_title_absent footer_page).
  apply (none_by_search (Some (MatchStr "title")) [] _ _
           (search_named "title")).
  reflexivity.
Defined.

(** X7. When the first [<title>] element of the document, in document
    order, has one child and that child is a string, the title line is
    ["Title: "] followed by that string as it is in the tree: unlike the
    blocks of the other sections, the title is not stripped. *)
Theorem X7_title_verbatim (soup : PageElement)
    (before after : list PageElement) (a : list (str * str))
    (k : StringKind) (s : str) :
  nodes soup = before ++ Tag "title" a [Text k s] :: after ->
  (forall e, In e before -> ~ tag_named "title" e) ->
  prints (title_block soup) [lit "Title: " ++ s].
Proof.
  intros E Hb w. unfold title_block, soup_title.
  destruct (find_first (Some (MatchStr "title")) [] _ soup before _ after
              (search_named "title") E) as (r & Hr & Er); auto.
  { exists a, [Text k s]. reflexivity. }
  rewrite Hr, Er. reflexivity.
Qed.

Lemma X7_title_verbatim_witness :
  prints (title_block
            (document [elem "p" [] []; elem "title" [] [txt "  Acme  "];
                       elem "title" [] [txt "second"]]))
    [lit "Title:   Acme  "].
Proof.
  apply (X7_title_verbatim _ [elem "p" [] []]
           [txt "  Acme  "; elem "title" [] [txt "second"]; txt "second"]
           [] NavigableString "  Acme  ").
  - reflexivity.
  - apply (none_by_search (Some (MatchStr "title")) [] _ _
             (search_named "title")).
    reflexivity.
Defined.

(** X8. When the first [<title>] element of the document has no child,
    or more than one, the title line is ["Title: None"], whatever text
    the element holds. *)
Theorem X8_title_None (soup : PageElement)
    (before after : list PageElement) (a : list (str * str))
    (cs : list PageElement) :
  nodes soup = before ++ Tag "title" a cs :: after ->
  (forall e, In e before -> ~ tag_named "title" e) ->
  List.length cs <> 1 ->
  prints (title_block soup) [lit "Title: None"].
Proof.
  intros E Hb Hcs w. unfold title_block, soup_title.
  destruct (find_first (Some (MatchStr "title")) [] _ soup before _ after
              (search_named "title") E) as (r & Hr & Er); auto.
  { exists a, cs. reflexivity. }
  rewrite Hr, Er. cbn [truthy].
  assert (Hs : string_of (Tag "title" a cs) = None).
  { destruct cs as [|c [|d cs]]; [reflexivity | | reflexivity].
    exfalso. apply Hcs. reflexivity. }
  rewrite Hs. reflexivity.
Qed.

Lemma X8_title_None_witness :
  prints (title_block
            (document [elem "title" [] [txt "A"; elem "b" [] [txt "c"]]]))
    [lit "Title: None"].
Proof.
  apply (X8_title_None _ [] [txt "A"; elem "b" [] [txt "c"]; txt "c"] []
           [txt "A"; elem "b" [] [txt "c"]]).
  - reflexivity.
  - intros e [].
  - discriminate.
Defined.

(** ** The entry point *)

(** X9. Started without a file name ([sys.argv] holds the program name
    only, or nothing), the program ends normally, reads no file and
    prints nothing. *)
Theorem X9_no_filename (BeautifulSoup : str -> PageElement)
    (argv : list str) (w : World) :
  List.length argv <= 1 ->
  main BeautifulSoup argv w = (inr tt, w).
Proof.
  intros H. unfold main.
  destruct (Nat.ltb_spec 1 (List.length argv)); [lia | reflexivity].
Qed.

Lemma X9_no_filename_witness :
  main (fun _ => sample) [lit "parse_lazyapply.py"] empty_world
  = (inr tt, empty_world).
Proof.
  apply (X9_no_filename (fun _ => sample) [lit "parse_lazyapply.py"]).
  simpl. lia.
Defined.

(** X10. When the file named by the first argument cannot be opened
    or decoded, the run ends with the exception that the read raises,
    before anything is printed, not even the first header, and the world
    is as it was. *)
Theorem X10_read_error_before_output (BeautifulSoup : str -> PageElement)
    (argv : list str) (filename : str) (e : Exception) (w : World) :
  nth_error argv 1 = Some filename ->
  files w filename = inl e ->
  main BeautifulSoup argv w = (inl e, w).
Proof.
  intros Hn Hf. unfold main.
  assert (Hlen : 1 < List.length argv)
    by (apply nth_error_Some; rewrite Hn; discriminate).
  destruct (Nat.ltb_spec 1 (List.length argv)); [|lia].
  rewrite Hn. apply parse_file_error. exact Hf.
Qed.

Lemma X10_read_error_before_output_witness :
  main (fun _ => sample) [lit "parse_lazyapply.py"; lit "missing.html"]
    (only_file "x.html" "<html>" [lit "earlier output"])
  = (inl (OSError "missing.html"),
     only_file "x.html" "<html>" [lit "earlier output"]).
Proof.
  apply (X10_read_error_before_output (fun _ => sample)
           [lit "parse_lazyapply.py"; lit "missing.html"] "missing.html"
           (OSError "missing.html")
           (only_file "x.html" "<html>" [lit "earlier output"])).
  - reflexivity.
  - reflexivity.
Defined.

(** ** Blocks of text: more lemmas *)

Lemma lstrip_nil_iff (s : str) :
  lstrip s = [] <-> forallb isspace s = true.
Proof.
  induction s as [|c s IH]; simpl; [tauto|].
  destruct (isspace c); simpl; [exact IH|].
  split; discriminate.
Qed.

Lemma strip_nil_iff (s : str) : strip s = [] <-> forallb isspace s = true.
Proof.
  rewrite <- lstrip_nil_iff. unfold strip, rstrip. split.
  - intros H. destruct (lstrip_result s) as [E | Hs]; [exact E|].
    destruct (lstrip s) as [|c t]; [reflexivity|]. simpl in Hs. exfalso.
    simpl rev in H.
    destruct (lstrip_keeps_last (rev t) c Hs) as [v Ev].
    rewrite Ev, rev_app_distr in H. discriminate.
  - intros ->. reflexivity.
Qed.

Lemma join_nil_iff (sep : str) (l : list str) :
  Forall (fun r => r <> []) l -> (join sep l = [] <-> l = []).
Proof.
  intros H. destruct H as [|p l Hp _]; [tauto|].
  split; [|discriminate]. intros E. exfalso.
  destruct l; simpl in E.
  - contradiction.
  - destruct p; [contradiction | discriminate].
Qed.

Lemma stripped_nil_iff (runs : list str) :
  filter str_truthy (map strip runs) = []
  <-> Forall (fun run => forallb isspace run = true) runs.
Proof.
  induction runs as [|r runs IH]; simpl.
  - split; [constructor | reflexivity].
  - destruct (strip r) as [|c t] eqn:E; simpl.
    + rewrite IH. apply strip_nil_iff in E. split.
      * intros H. constructor; assumption.
      * intros H. inversion H. assumption.
    + split; [discriminate|]. intros H. inversion H as [|? ? Hr _]; subst.
      apply strip_nil_iff in Hr. rewrite Hr in E. discriminate.
Qed.

Lemma In_join (sep : str) (c : ascii) (r : str) (l : list str) :
  In r l -> In c r -> In c (join sep l).
Proof.
  intros Hr Hc. induction l as [|p l IH]; [destruct Hr|].
  destruct l as [|q l].
  - destruct Hr as [-> | []]. exact Hc.
  - change (join sep (p :: q :: l)) with (p ++ sep ++ join sep (q :: l)).
    apply in_or_app. destruct Hr as [-> | Hr]; [left; exact Hc|].
    right. apply in_or_app. right. apply IH. exact Hr.
Qed.

Lemma In_lstrip (c : ascii) (s : str) :
  In c s -> isspace c = false -> In c (lstrip s).
Proof.
  intros Hc Hs. induction s as [|x s IH]; [destruct Hc|]. simpl.
  destruct (isspace x) eqn:Hx; [|exact Hc].
  destruct Hc as [-> | Hc]; [congruence | apply IH; exact Hc].
Qed.

(** Stripping removes whitespace only. *)
Lemma In_strip (c : ascii) (s : str) :
  In c s -> isspace c = false -> In c (strip s).
Proof.
  intros Hc Hs. unfold strip, rstrip. apply in_rev.
  rewrite rev_involutive. apply In_lstrip; [|exact Hs].
  apply in_rev. rewrite rev_involutive. apply In_lstrip; assumption.
Qed.

(** ** The nodes below a tag *)

Lemma walk_head pre e : exists l, walk pre e = (pre, e) :: l.
Proof. destruct e; simpl; eauto. Qed.

Lemma walk_snd e : forall p1 p2, map snd (walk p1 e) = map snd (walk p2 e).
Proof.
  induction e as [k s | n a cs IH] using PageElement_ind'; intros p1 p2.
  - reflexivity.
  - rewrite !walk_Tag. cbn [map snd]. f_equal. generalize 0 at 1 2.
    induction IH as [|c cs Hc _ IHcs]; intros i; [reflexivity|].
    rewrite !walk_kids_cons, !map_app, IHcs.
    f_equal. apply Hc.
Qed.

Lemma walk_nodes pre e : map snd (walk pre e) = e :: nodes e.
Proof.
  rewrite (walk_snd e pre []). unfold nodes, descendants.
  destruct (walk_head [] e) as [l ->]. reflexivity.
Qed.

Lemma nodes_Tag n a cs :
  nodes (Tag n a cs) = flat_map (fun c => c :: nodes c) cs.
Proof.
  unfold nodes at 1, descendants. rewrite walk_Tag. cbn [tl].
  generalize 0. induction cs as [|c cs IH]; intros i; [reflexivity|].
  rewrite walk_kids_cons, map_app, IH, walk_nodes. reflexivity.
Qed.

(** The nodes below a descendant lie together among the nodes below its
    ancestor. *)
Lemma nodes_nested : forall q outer inner,
  q <> [] -> resolve outer q = Some inner ->
  exists pre post, nodes outer = pre ++ inner :: nodes inner ++ post.
Proof.
  induction q as [|i q IH]; intros outer inner Hq H; [contradiction|].
  destruct outer as [k s | n a cs]; [discriminate|].
  rewrite resolve_cons in H.
  destruct (nth_error cs i) as [c|] eqn:Hi; [|discriminate].
  apply nth_error_split in Hi. destruct Hi as (l1 & l2 & -> & _).
  rewrite nodes_Tag, flat_map_app. cbn [flat_map].
  destruct q as [|j q].
  - inversion H; subst.
    exists (flat_map (fun c => c :: nodes c) l1),
           (flat_map (fun c => c :: nodes c) l2).
    reflexivity.
  - destruct (IH c inner) as (pre & post & E); [discriminate | exact H |].
    rewrite E.
    exists (flat_map (fun c => c :: nodes c) l1 ++ c :: pre),
           (post ++ flat_map (fun c => c :: nodes c) l2).
    cbn [app]. repeat (rewrite <- app_assoc; cbn [app]). reflexivity.
Qed.

Lemma resolve_app : forall p q root e,
  resolve root p = Some e -> resolve root (p ++ q) = resolve e q.
Proof.
  induction p as [|i p IH]; intros q root e H.
  - inversion H. reflexivity.
  - destruct root as [k s | n a cs]; [discriminate|].
    cbn [app]. rewrite resolve_cons in *.
    destruct (nth_error cs i); [apply IH; exact H | discriminate].
Qed.

Lemma join_prefix (sep : str) (post : list str) : forall mid,
  exists t, join sep (mid ++ post) = join sep mid ++ t.
Proof.
  induction mid as [|x mid IH].
  - exists (join sep post). reflexivity.
  - destruct mid as [|y mid].
    + destruct post as [|z post].
      * exists []. simpl. rewrite app_nil_r. reflexivity.
      * exists (sep ++ join sep (z :: post)). reflexivity.
    + destruct IH as [t E].
      change (join sep ((x :: y :: mid) ++ post))
        with (x ++ sep ++ join sep ((y :: mid) ++ post)).
      rewrite E. exists t.
      change (join sep (x :: y :: mid))
        with (x ++ sep ++ join sep (y :: mid)).
      rewrite <- !app_assoc. reflexivity.
Qed.

Lemma Substring_join_skip (sep x s : str) (l : list str) :
  Substring s (join sep l) -> Substring s (join sep (x :: l)).
Proof.
  intros (pre & post & E). destruct l as [|y l].
  - simpl in E. destruct pre; [|discriminate]. destruct s; [|discriminate].
    exists [], x. reflexivity.
  - change (join sep (x :: y :: l)) with (x ++ sep ++ join sep (y :: l)).
    rewrite E. exists (x ++ sep ++ pre), post.
    rewrite <- !app_assoc. reflexivity.
Qed.

(** The block of a part of the runs occurs in the block of all runs. *)
Lemma Substring_join (sep : str) (pre mid post : list str) :
  Substring (join sep mid) (join sep (pre ++ mid ++ post)).
Proof.
  induction pre as [|x pre IH].
  - destruct (join_prefix sep post mid) as [t E].
    exists [], t. exact E.
  - apply Substring_join_skip. exact IH.
Qed.

Lemma stripped_runs_nested no ao co ni ai ci (q : path) :
  q <> [] -> resolve (Tag no ao co) q = Some (Tag ni ai ci) ->
  interesting_string_types no = interesting_string_types ni ->
  exists pre post,
    stripped_runs (Tag no ao co)
    = pre ++ stripped_runs (Tag ni ai ci) ++ post.
Proof.
  intros Hq H Ht.
  destruct (nodes_nested q _ _ Hq H) as (pre & post & E).
  unfold stripped_runs, text_runs. rewrite E, Ht.
  rewrite flat_map_app. cbn [flat_map app]. rewrite flat_map_app.
  rewrite !map_app, !filter_app. eauto.
Qed.

Lemma nested_blocks (sep : str) no ao co ni ai ci (q : path) :
  q <> [] -> resolve (Tag no ao co) q = Some (Tag ni ai ci) ->
  interesting_string_types no = interesting_string_types ni ->
  Substring (text_block sep (Tag ni ai ci)) (text_block sep (Tag no ao co)).
Proof.
  intros Hq H Ht.
  destruct (stripped_runs_nested no ao co ni ai ci q Hq H Ht)
    as (pre & post & E).
  unfold text_block. rewrite E. apply Substring_join.
Qed.

Lemma found_In name attrs soup p e :
  p <> [] -> resolve soup p = Some e -> search_tag name attrs e = true ->
  In e (map snd (find_all name attrs soup)).
Proof.
  intros Hp Hr Hs. unfold find_all. rewrite filter_map_snd.
  apply filter_In. split; [|exact Hs].
  change e with (snd (p, e)). apply in_map. apply descendants_iff. auto.
Qed.

(** ** Blocks of text *)

(** X11. The block printed for a tag is empty, so that [print] writes an
    empty line, if and only if every text run of the tag consists of
    whitespace only (in particular when it has none); this holds for
    either separator the script uses. *)
Theorem X11_block_empty (sep : str) (n : str) (a : list (str * str))
    (cs : list PageElement) :
  get_text sep true (Tag n a cs) = []
  <-> Forall (fun run => forallb isspace run = true)
        (text_runs (Tag n a cs)).
Proof.
  rewrite get_text_tag. unfold text_block.
  rewrite join_nil_iff.
  - unfold stripped_runs. apply stripped_nil_iff.
  - eapply Forall_impl; [|apply stripped_runs_stripped].
    intros r [Hr _]. exact Hr.
Qed.

(** X12. The loop of the Features section prints every match on its own,
    so when a matching element lies inside another matching element both
    blocks are printed, and the block of the inner one occurs again, as a
    substring, inside the block of the outer one. *)
Theorem X12_nested_features (soup outer inner : PageElement) (p q : path) :
  p <> [] -> q <> [] ->
  resolve soup p = Some outer -> resolve outer q = Some inner ->
  section_with_id [lit "features"; lit "how-it-works"] outer ->
  section_with_id [lit "features"; lit "how-it-works"] inner ->
  exists out,
    prints (features_block soup) out
    /\ In (text_block [newline] outer) out
    /\ In (text_block [newline] inner) out
    /\ Substring (text_block [newline] inner) (text_block [newline] outer).
Proof.
  intros Hp Hq Ho Hi So Si.
  assert (HS : forall e,
            search_tag section_or_div
              [(lit "id", MatchAny [lit "features"; lit "how-it-works"])] e
            = true
            <-> section_with_id [lit "features"; lit "how-it-works"] e)
    by (intros e; apply search_section_ids; discriminate).
  eexists. split; [apply features_block_prints|]. split; [|split].
  - apply in_map. apply (found_In _ _ soup p); [exact Hp | exact Ho|].
    apply HS. exact So.
  - apply in_map. apply (found_In _ _ soup (p ++ q)).
    + destruct p; [contradiction | discriminate].
    + rewrite (resolve_app p q soup outer Ho). exact Hi.
    + apply HS. exact Si.
  - destruct So as (no & ao & co & io & -> & Hno & _).
    destruct Si as (ni & ai & ci & ii & -> & Hni & _).
    apply (nested_blocks _ no ao co ni ai ci q Hq Hi).
    destruct Hno as [-> | ->], Hni as [-> | ->]; reflexivity.
Qed.

Lemma X12_nested_features_witness :
  exists out,
    prints (features_block nested_page) out
    /\ In (lit "Three steps" ++ [newline] ++ lit "Fast" ++ [newline]
           ++ lit "and done") out
    /\ In (lit "Fast") out
    /\ Substring (lit "Fast")
         (lit "Three steps" ++ [newline] ++ lit "Fast" ++ [newline]
          ++ lit "and done").
Proof.
  apply (X12_nested_features nested_page
           (elem "section" [("id", "how-it-works")]
              [txt " Three steps ";
               elem "div" [("id", "features")] [txt "Fast"];
               txt " and done "])
           (elem "div" [("id", "features")] [txt "Fast"])
           [0] [1]).
  - discriminate.
  - discriminate.
  - reflexivity.
  - reflexivity.
  - apply search_section_ids; [discriminate | reflexivity].
  - apply search_section_ids; [discriminate | reflexivity].
Defined.

(** X13. The search for footer keywords prints every matching [<div>] on
    its own as well: when a [<div>] with ["footer"] in its class lies
    inside another one, and the document has no [<footer>] element, both
    blocks are printed and the block of the inner one occurs inside the
    block of the outer one. *)
Theorem X13_nested_footer_divs (soup outer inner : PageElement)
    (p q : path) :
  (forall e, In e (nodes soup) -> ~ tag_named "footer" e) ->
  p <> [] -> q <> [] ->
  resolve soup p = Some outer -> resolve outer q = Some inner ->
  footer_div outer -> footer_div inner ->
  exists out,
    prints (footer_block soup) out
    /\ In (text_block [newline] outer) out
    /\ In (text_block [newline] inner) out
    /\ Substring (text_block [newline] inner) (text_block [newline] outer).
Proof.
  intros Hn Hp Hq Ho Hi So Si.
  eexists. split; [apply footer_block_absent; exact Hn|]. split; [|split].
  - apply in_map. apply (found_In _ _ soup p); [exact Hp | exact Ho|].
    apply search_footer_div. exact So.
  - apply in_map. apply (found_In _ _ soup (p ++ q)).
    + destruct p; [contradiction | discriminate].
    + rewrite (resolve_app p q soup outer Ho). exact Hi.
    + apply search_footer_div. exact Si.
  - destruct So as (ao & co & ro & -> & _).
    destruct Si as (ai & ci & ri & -> & _).
    apply (nested_blocks _ _ ao co _ ai ci q Hq Hi). reflexivity.
Qed.

Lemma X13_nested_footer_divs_witness :
  exists out,
    prints (footer_block nested_page) out
    /\ In (lit "Acme" ++ [newline] ++ lit "Terms") out
    /\ In (lit "Terms") out
    /\ Substring (lit "Terms") (lit "Acme" ++ [newline] ++ lit "Terms").
Proof.
  apply (X13_nested_footer_divs nested_page
           (elem "div" [("class", "site-footer")]
              [txt "Acme";
               elem "div" [("class", "footer-links")] [txt "Terms"]])
           (elem "div" [("class", "footer-links")] [txt "Terms"])
           [1] [1]).
  - apply no_footer_by_search. reflexivity.
  - discriminate.
  - discriminate.
  - reflexivity.
  - reflexivity.
  - apply search_footer_div. reflexivity.
  - apply search_footer_div. reflexivity.
Defined.

(** ** The price search *)

Lemma child_text_run n a cs i k s :
  nth_error cs i = Some (Text k s) ->
  existsb (kind_eqb k) (interesting_string_types n) = true ->
  In s (text_runs (Tag n a cs)).
Proof.
  intros Hi Hk. unfold text_runs. apply in_flat_map.
  exists (Text k s). split.
  - rewrite nodes_Tag. apply in_flat_map. exists (Text k s).
    split; [apply (nth_error_In _ _ Hi) | left; reflexivity].
  - rewrite Hk. left. reflexivity.
Qed.

(** X14. In the price search, the line printed for a string that counts
    as text of its parent (an ordinary string, outside of [<script>],
    [<style>] and the like) holds a [$] itself: the parent's text keeps
    the character that was looked for. The class of the string matters:
    a [$] inside a comment gives a line too, that of the text around
    it. *)
Theorem X14_price_line_has_dollar (soup : PageElement) (q : path)
    (n : str) (a : list (str * str)) (cs : list PageElement) (i : nat)
    (k : StringKind) (s : str) :
  (forall e, In e (nodes soup) -> ~ section_with_id [lit "pricing"] e) ->
  resolve soup q = Some (Tag n a cs) ->
  nth_error cs i = Some (Text k s) ->
  In dollar s ->
  existsb (kind_eqb k) (interesting_string_types n) = true ->
  exists out,
    prints (pricing_block soup) out
    /\ In (text_block [] (Tag n a cs)) out
    /\ In dollar (text_block [] (Tag n a cs)).
Proof.
  intros Hn Hq Hi Hd Hk.
  eexists. split; [apply pricing_block_absent; exact Hn|].
  pose proof (child_in_descendants soup q (Tag n a cs) i _ Hq Hi) as D.
  split.
  - rewrite <- (parent_text_of soup (q ++ [i], Text k s) (Tag n a cs) D)
      by (exists q, i; auto).
    apply in_map. apply filter_In. split; [exact D|].
    apply (dollar_text_spec (Text k s)). exists k, s. auto.
  - assert (Hs : In dollar (strip s)) by (apply In_strip; auto).
    unfold text_block. apply (In_join _ _ (strip s)); [|exact Hs].
    unfold stripped_runs. apply filter_In. split.
    + apply in_map. apply (child_text_run n a cs i k s Hi Hk).
    + destruct (strip s); [destruct Hs | reflexivity].
Qed.

Lemma X14_price_line_has_dollar_witness :
  exists out,
    prints (pricing_block sample) out
    /\ In (lit "Only $5nowor $9") out
    /\ In dollar (lit "Only $5nowor $9").
Proof.
  apply (X14_price_line_has_dollar sample [0; 1; 1] "p" []
           [txt "Only $5"; elem "i" [] [txt " now "]; txt "or $9"]
           2 NavigableString "or $9").
  - apply no_pricing_by_search. reflexivity.
  - reflexivity.
  - reflexivity.
  - apply contains_char. reflexivity.
  - reflexivity.
Defined.

Example price_in_comment :
  printed_by (pricing_block
    (document [elem "p" [] [txt "Ask us"; Text Comment " was $5 "]]))
  = [lit "Ask us"].
Proof. reflexivity. Qed.
